(** * distributed_networks_3d: the network model and the phase scheduler

    A shallow embedding of [src/script.js]: the [BitcoinNode] class
    (connection bookkeeping) and the per-frame callback registered on
    [scene.onBeforeRenderObservable] with its four phase handlers.

    Modelling conventions.
    - JavaScript numbers are exact rationals ([Q]); IEEE rounding, NaN and
      infinities are outside the model.
    - Objects are references ([ref]) into a store ([Heap]); the array
      [nodes] holds references, and so do the closures handed to
      [setTimeout].
    - [Math.random], [Date.now] and [engine.getDeltaTime] are inputs of a
      tick ([TickEnv]); [Math.cos], [Math.sin] and [Math.PI] are parameters.
    - Babylon meshes, materials and GUI controls are not modelled; the calls
      that the scheduler makes to them are recorded in an effect log. *)

From Stdlib Require Import QArith Qround ZArith List String Bool Arith Lia.
From Stdlib Require Import DecimalString DecimalZ DecimalPos Lqa.
From Equations Require Import Equations.
Import ListNotations.

Local Open Scope string_scope.
Local Open Scope list_scope.
Local Open Scope Q_scope.

(** ** Numbers *)

Module Num.

(** [a < b] on numbers, as a boolean. *)
Definition ltb (a b : Q) : bool :=
  (Qnum a * QDen b <? Qnum b * QDen a)%Z.

(** [Math.max(a, b)]. *)
Definition max (a b : Q) : Q := if ltb a b then b else a.

(** Rounding toward zero. *)
Definition trunc (a : Q) : Z := Z.quot (Qnum a) (QDen a).

(** The remainder operator [a % b]: the result has the sign of the
    dividend.  ([b] is never zero where the program uses it.) *)
Definition rem (a b : Q) : Q := a - b * inject_Z (trunc (a / b)).

(** [Math.floor(r * n)] for an array length [n]. *)
Definition floorMul (r : Q) (n : nat) : Z := Qfloor (r * inject_Z (Z.of_nat n)).

(** [arr[i]]: [undefined] ([None]) outside the array. *)
Definition index {A} (arr : list A) (i : Z) : option A :=
  if (i <? 0)%Z then None else nth_error arr (Z.to_nat i).

(** [arr.splice(i, 1)]: a negative start counts from the end. *)
Fixpoint removeAt {A} (n : nat) (arr : list A) {struct arr} : list A :=
  match arr, n with
  | [], _ => []
  | _ :: rest, O => rest
  | x :: rest, S n' => x :: removeAt n' rest
  end.

Definition splice1 {A} (arr : list A) (i : Z) : list A :=
  let len := Z.of_nat (List.length arr) in
  let start := if (i <? 0)%Z then Z.max (len + i) 0 else Z.min i len in
  removeAt (Z.to_nat start) arr.

(** Template-literal rendering of an integer, [`${n}`]. *)
Definition toString (n : Z) : string := NilZero.string_of_int (Z.to_int n).

End Num.

(** ** [Set] of strings, in insertion order *)

Module JSSet.

Definition t := list string.

Definition empty : t := [].

Definition has (x : string) (s : t) : bool := existsb (String.eqb x) s.

Definition add (x : string) (s : t) : t := if has x s then s else s ++ [x].

Definition delete (x : string) (s : t) : t :=
  filter (fun y => negb (String.eqb x y)) s.

Definition size (s : t) : nat := List.length s.

End JSSet.

(** ** Data *)

Definition ref := nat.

Record Vector3 := mkVector3 { vx : Q; vy : Q; vz : Q }.

(** [BABYLON.Vector3.Distance(p, q) < d], compared on squares ([d] is
    [radius * 0.8], never negative). *)
Definition distanceLt (p q : Vector3) (d : Q) : bool :=
  Num.ltb ((vx p - vx q) * (vx p - vx q) + (vy p - vy q) * (vy p - vy q)
           + (vz p - vz q) * (vz p - vz q)) (d * d).

Record BitcoinNode := mkBitcoinNode {
  nodeId : string;
  connections : JSSet.t;
  position : Vector3            (* this.mesh.position *)
}.

Definition Heap := ref -> BitcoinNode.

Definition store (h : Heap) (r : ref) (o : BitcoinNode) : Heap :=
  fun r' => if Nat.eqb r' r then o else h r'.

Definition setConnections (h : Heap) (r : ref) (c : JSSet.t) : Heap :=
  store h r (mkBitcoinNode (nodeId (h r)) c (position (h r))).

Inductive Phase := DISCOVERY | SYNCING | PROCESSING | NETWORK_CHANGES.

Inductive PacketType := block | transaction | peer.

Record SimulationState := mkSimulationState {
  speed : Q;
  isRunning : bool;
  initialNodeCount : Q;
  nodeCount : nat;
  currentStep : Q;
  currentPhase : Phase;
  isDarkMode : bool;
  phaseTimer : Q
}.

(** Closures waiting in [setTimeout]. *)
Inductive Timer :=
| ConnectTimeout (sourceNode targetNode : ref) (delay : Q)
| ProcessingTimeout (sourceNode : ref) (delay : Q).

(** Calls into the renderer. *)
Inductive Effect :=
| UpdateInstructions (shown : Phase)
| SendPacket (sourceNode targetNode : ref) (type : PacketType)
| ShowSyncProgress (node : ref) (progress : Q)
| SetProcessing (node : ref) (isProcessing : bool)
| CreateLines (a b : ref)
| CreateSphere (node : ref)
| FadeOut (node : ref).

Record World := mkWorld {
  simulationState : SimulationState;
  nodes : list ref;
  heap : Heap;
  nextRef : ref;
  timers : list Timer;
  effects : list Effect
}.

Definition withState (f : SimulationState -> SimulationState) (w : World) : World :=
  mkWorld (f (simulationState w)) (nodes w) (heap w) (nextRef w) (timers w) (effects w).

Definition withNodes (l : list ref) (w : World) : World :=
  mkWorld (simulationState w) l (heap w) (nextRef w) (timers w) (effects w).

Definition withHeap (h : Heap) (w : World) : World :=
  mkWorld (simulationState w) (nodes w) h (nextRef w) (timers w) (effects w).

Definition withTimers (l : list Timer) (w : World) : World :=
  mkWorld (simulationState w) (nodes w) (heap w) (nextRef w) l (effects w).

Definition emit (e : Effect) (w : World) : World :=
  mkWorld (simulationState w) (nodes w) (heap w) (nextRef w) (timers w) (effects w ++ [e]).

Definition setTimeout (t : Timer) (w : World) : World :=
  withTimers (timers w ++ [t]) w.

Definition setPhaseTimer (t : Q) (s : SimulationState) : SimulationState :=
  mkSimulationState (speed s) (isRunning s) (initialNodeCount s) (nodeCount s)
    (currentStep s) (currentPhase s) (isDarkMode s) t.

Definition setCurrentPhase (p : Phase) (s : SimulationState) : SimulationState :=
  mkSimulationState (speed s) (isRunning s) (initialNodeCount s) (nodeCount s)
    (currentStep s) p (isDarkMode s) (phaseTimer s).

Definition setNodeCount (n : nat) (s : SimulationState) : SimulationState :=
  mkSimulationState (speed s) (isRunning s) (initialNodeCount s) n
    (currentStep s) (currentPhase s) (isDarkMode s) (phaseTimer s).

Definition setIsRunning (b : bool) (s : SimulationState) : SimulationState :=
  mkSimulationState (speed s) b (initialNodeCount s) (nodeCount s)
    (currentStep s) (currentPhase s) (isDarkMode s) (phaseTimer s).

Definition setIsDarkMode (b : bool) (s : SimulationState) : SimulationState :=
  mkSimulationState (speed s) (isRunning s) (initialNodeCount s) (nodeCount s)
    (currentStep s) (currentPhase s) b (phaseTimer s).

(** ** class BitcoinNode *)

(** [new BitcoinNode(scene, position, nodeId)], followed by the
    [nodes.push] that every call site performs. *)
Definition pushNewNode (pos : Vector3) (id : string) (w : World) : World :=
  let r := nextRef w in
  emit (CreateSphere r)
    (mkWorld (simulationState w) (nodes w ++ [r])
       (store (heap w) r (mkBitcoinNode id JSSet.empty pos))
       (S r) (timers w) (effects w)).

(** [this.connectTo(otherNode, scene)]. *)
Definition connectTo (this otherNode : ref) (w : World) : World :=
  let h := heap w in
  if JSSet.has (nodeId (h otherNode)) (connections (h this)) then w
  else
    let h1 := setConnections h this
                (JSSet.add (nodeId (h otherNode)) (connections (h this))) in
    let h2 := setConnections h1 otherNode
                (JSSet.add (nodeId (h1 this)) (connections (h1 otherNode))) in
    emit (CreateLines this otherNode) (withHeap h2 w).

(** [node.removeConnection(otherNodeId)]. *)
Definition removeConnection (node : ref) (otherNodeId : string) (h : Heap) : Heap :=
  setConnections h node (JSSet.delete otherNodeId (connections (h node))).

(** [this.shutdown(scene, nodes)]. *)
Definition shutdown (this : ref) (arr : list ref) (w : World) : World :=
  let h' := fold_left
              (fun h node =>
                 if negb (Nat.eqb node this)
                 then removeConnection node (nodeId (h this)) h
                 else h)
              arr (heap w) in
  emit (FadeOut this) (withHeap h' w).

(** [this.sendPacket(targetNode, scene, type)]. *)
Definition sendPacket (this targetNode : ref) (type : PacketType) (w : World) : World :=
  let isPeer := match type with peer => true | _ => false end in
  if negb isPeer
     && negb (JSSet.has (nodeId (heap w targetNode)) (connections (heap w this)))
  then w
  else emit (SendPacket this targetNode type) w.

(** [node.setProcessing(isProcessing)] and [node.showSyncProgress(progress)]
    only touch the material and the progress ring. *)
Definition setProcessing (this : ref) (isProcessing : bool) (w : World) : World :=
  emit (SetProcessing this isProcessing) w.

Definition showSyncProgress (this : ref) (progress : Q) (w : World) : World :=
  emit (ShowSyncProgress this progress) w.

(** ** The scheduler *)

(** What one run of the render callback reads from its environment:
    [scene.getEngine().getDeltaTime()], the successive values of
    [Math.random()] (numbered from 0 within the tick) and [Date.now()]. *)
Record TickEnv := mkTickEnv {
  deltaTime : Q;
  random : nat -> Q;
  now : Z
}.

(** A run of the callback either returns or stops at an uncaught
    [TypeError] (a property read on [undefined]); the world is the one
    reached at that point. *)
Inductive Outcome :=
| Completed (w : World)
| TypeError (w : World).

Definition andThen (o : Outcome) (k : World -> Outcome) : Outcome :=
  match o with
  | Completed w => k w
  | TypeError w => TypeError w
  end.

Definition worldOf (o : Outcome) : World :=
  match o with Completed w | TypeError w => w end.

Definition radius : Q := 5.

(** [updateInstructions()]: refreshes the text shown for the current phase. *)
Definition updateInstructions (w : World) : World :=
  emit (UpdateInstructions (currentPhase (simulationState w))) w.

(** The three statements that end every phase:
    [currentPhase = p; phaseTimer = 0; updateInstructions();]. *)
Definition enterPhase (p : Phase) (w : World) : World :=
  updateInstructions
    (withState (setPhaseTimer 0) (withState (setCurrentPhase p) w)).

(** [simulationState.nodeCount = nodes.length]. *)
Definition syncNodeCount (w : World) : World :=
  withState (setNodeCount (List.length (nodes w))) w.

(** The peer selection shared by the syncing and processing handlers:
    [Array.from(node.connections)[Math.floor(Math.random() * size)]],
    resolved with [nodes.find(n => n.nodeId === targetNodeId)]. *)
Definition pickRandomConnectedPeer (w : World) (node : ref) (r : Q) : option ref :=
  let connectedNodeIds := connections (heap w node) in
  match Num.index connectedNodeIds
          (Num.floorMul r (List.length connectedNodeIds)) with
  | None => None
  | Some targetNodeId =>
      find (fun n => String.eqb (nodeId (heap w n)) targetNodeId) (nodes w)
  end.

(** [sourceNode.connections.has(targetNode.nodeId) &&
     targetNode.connections.has(sourceNode.nodeId)]. *)
Definition bidirectional (w : World) (a b : ref) : bool :=
  JSSet.has (nodeId (heap w b)) (connections (heap w a))
  && JSSet.has (nodeId (heap w a)) (connections (heap w b)).

(** [phaseTimer += scene.getEngine().getDeltaTime() * speed]. *)
Definition advanceTimer (env : TickEnv) (w : World) : World :=
  withState (fun s => setPhaseTimer (phaseTimer s + deltaTime env * speed s) s) w.

(** The removal branch of the network-changes handler, for the drawn
    [index]: [node = nodes[index]; nodes.splice(index, 1);
    node.shutdown(scene, nodes); nodeCount = nodes.length]. *)
Definition removeNode (index : Z) (w : World) : Outcome :=
  let node := Num.index (nodes w) index in
  let w1 := withNodes (Num.splice1 (nodes w) index) w in
  match node with
  | None => TypeError w1
  | Some this => Completed (syncNodeCount (shutdown this (nodes w1) w1))
  end.

(** ** The program: start-up, events, reachable worlds *)

(** The values of [simulationState] at start-up. *)
Definition initialState : SimulationState :=
  mkSimulationState 1 true 1 1 0 NETWORK_CHANGES true 6900.

(** Nothing allocated yet. *)
Definition emptyWorld : World :=
  mkWorld initialState []
    (fun _ => mkBitcoinNode "" JSSet.empty (mkVector3 0 0 0)) 0%nat [] [].

(** [createScene] up to the registration of the callback: the array with
    its single node ["node-0"] at [(radius, 0, 0)], then
    [updateInstructions()]. *)
Definition initialWorld : World :=
  updateInstructions (pushNewNode (mkVector3 radius 0 0) "node-0" emptyWorld).

(** The body of a pending closure. *)
Definition runTimer (t : Timer) (w : World) : World :=
  match t with
  | ConnectTimeout sourceNode targetNode _ => connectTo sourceNode targetNode w
  | ProcessingTimeout sourceNode _ => setProcessing sourceNode false w
  end.

(** The [k]-th pending closure runs. *)
Definition fireTimeout (k : nat) (w : World) : World :=
  match nth_error (timers w) k with
  | None => w
  | Some t => runTimer t (withTimers (Num.removeAt k (timers w)) w)
  end.

(** The play/pause and theme buttons. *)
Definition playPause (w : World) : World :=
  withState (fun s => setIsRunning (negb (isRunning s)) s) w.

Definition toggleTheme (w : World) : World :=
  withState (fun s => setIsDarkMode (negb (isDarkMode s)) s) w.

(** What the host can hand to a tick: a non-negative frame time and
    values of [Math.random()] in [[0, 1)]. *)
Definition validEnv (env : TickEnv) : Prop :=
  0 <= deltaTime env /\ forall i, 0 <= random env i /\ random env i < 1.

(** ** The network model: the graph and its two mutations *)

(** [a] lists [b]: [a.connections.has(b.nodeId)]. *)
Definition lists (w : World) (a b : ref) : bool :=
  JSSet.has (nodeId (heap w b)) (connections (heap w a)).





(** Number of phase-change notifications in an effect log. *)
Definition isNotification (e : Effect) : bool :=
  match e with UpdateInstructions _ => true | _ => false end.

Definition notifications (w : World) : nat :=
  List.length (filter isNotification (effects w)).

(** The cycle and the thresholds as the specification lists them;
    [phase_cycle] compares the callback with this table. *)
Definition nextPhase (p : Phase) : Phase :=
  match p with
  | DISCOVERY => SYNCING
  | SYNCING => PROCESSING
  | PROCESSING => NETWORK_CHANGES
  | NETWORK_CHANGES => DISCOVERY
  end.

Definition threshold (p : Phase) : Q :=
  match p with
  | DISCOVERY => 5000
  | SYNCING => 8000
  | PROCESSING => 6000
  | NETWORK_CHANGES => 7000
  end.

(** Rational stand-ins for [Math.cos] and [Math.sin] on [[0, 2 pi]]
    (Bhaskara's formula), used to run the model on concrete inputs. *)
Module Sample.

Definition PI : Q := 355 # 113.

Definition arch (x : Q) : Q :=
  16 * x * (PI - x) / (5 * PI * PI - 4 * x * (PI - x)).

Definition sin (x : Q) : Q :=
  if Num.ltb PI x then - arch (x - PI) else arch x.

Definition cos (x : Q) : Q :=
  let y := x + PI / 2 in
  if Num.ltb (2 * PI) y then sin (y - 2 * PI) else sin y.

End Sample.

(** ** Concrete worlds and inputs, for running the model *)

Module Demo.

(** Three unconnected nodes on the ring. *)
Definition three : World :=
  pushNewNode (mkVector3 0 0 radius) "node-2"
    (pushNewNode (mkVector3 (- radius) 0 0) "node-1"
       (pushNewNode (mkVector3 radius 0 0) "node-0" emptyWorld)).

(** The chain node-0, node-1, node-2. *)
Definition linked : World := connectTo 1%nat 2%nat (connectTo 0%nat 1%nat three).

(** A frame whose [Math.random()] always returns [r]. *)
Definition steady (delta r : Q) (clockMs : Z) : TickEnv :=
  mkTickEnv delta (fun _ => r) clockMs.

Definition firstFrame : TickEnv := steady 200 0 1700000000000.

(** Ten frames of assorted lengths. *)
Definition tenFrames : list TickEnv :=
  [steady 16 0 0; steady 17 (1 # 3) 16; steady 0 (1 # 2) 33; steady 9000 0 34;
   steady 16 (2 # 3) 9034; steady 33 0 9050; steady 7001 (1 # 4) 9083;
   steady 1 0 16084; steady 250 (9 # 10) 16085; steady 16 0 16335].

(** From start-up to the network-changes phase, then two short frames
    during which [Date.now()] does not advance. *)
Definition clockStuck : list TickEnv :=
  [steady 200 (1 # 2) 1699999980000; steady 5001 (1 # 2) 1699999985001;
   steady 8001 (1 # 2) 1699999993002; steady 6001 (1 # 2) 1699999999003;
   steady 7 (1 # 2) 1700000000000; steady 7 (1 # 2) 1700000000000].

(** The chain in the Syncing phase. *)
Definition syncing : World := withState (setCurrentPhase SYNCING) linked.

(** No node at all, in the Processing phase. *)
Definition unpopulated : World :=
  withState (setCurrentPhase PROCESSING) emptyWorld.

(** Three nodes and one pending connection closure. *)
Definition pending : World :=
  setTimeout (ConnectTimeout 0%nat 1%nat 500) three.

End Demo.

(** ** Frames of the handlers *)

(** Everything in [simulationState] except [nodeCount]. *)
Definition clock (s : SimulationState) :=
  (speed s, isRunning s, initialNodeCount s, currentStep s, currentPhase s,
   isDarkMode s, phaseTimer s).

(** Every pending connection closure joins two different nodes. *)
Definition timersDistinct (w : World) : Prop :=
  forall s t d, In (ConnectTimeout s t d) (timers w) -> s <> t.

(** [w'] differs from [w] in renderer calls other than phase
    notifications and in timers that keep [timersDistinct]. *)
Definition quiet (w w' : World) : Prop :=
  simulationState w' = simulationState w
  /\ nodes w' = nodes w
  /\ heap w' = heap w
  /\ nextRef w' = nextRef w
  /\ notifications w' = notifications w
  /\ (timersDistinct w -> timersDistinct w').

(** [Math.max(20, simulationState.initialNodeCount * 1.5)]. *)
Definition maxNodes (w : World) : Q :=
  Num.max 20 (initialNodeCount (simulationState w) * 1.5).

(** [nodes.length]. *)
Definition count (w : World) : nat := List.length (nodes w).

(** How a handler's body may change the array: not at all, by taking a
    node out (only above two nodes), or by appending one (only from two
    nodes on and below [maxNodes]). *)
Definition nodesChange (w w' : World) : Prop :=
  nodes w' = nodes w
  \/ ((2 < count w)%nat /\ (Nat.pred (count w) <= count w' <= count w)%nat)
  \/ ((2 <= count w)%nat /\ inject_Z (Z.of_nat (count w)) < maxNodes w
      /\ exists r, nodes w' = nodes w ++ [r]).

(** The array holds each node once, and only nodes already created. *)
Definition distinctNodes (w : World) : Prop :=
  NoDup (nodes w) /\ forall r, In r (nodes w) -> (r < nextRef w)%nat.

(** What the body of any handler leaves alone. *)
Definition calm (w w' : World) : Prop :=
  clock (simulationState w') = clock (simulationState w)
  /\ notifications w' = notifications w
  /\ (timersDistinct w -> timersDistinct w')
  /\ nodesChange w w'
  /\ (distinctNodes w -> distinctNodes w').

(** [w'] keeps every object of [w]: same identifier, same position, and
    no entry in a connection set that [w] did not have. *)
Definition keepsObjects (w w' : World) : Prop :=
  forall r, (r < nextRef w)%nat ->
    nodeId (heap w' r) = nodeId (heap w r)
    /\ position (heap w' r) = position (heap w r)
    /\ forall id, JSSet.has id (connections (heap w' r)) = true ->
                  JSSet.has id (connections (heap w r)) = true.

(** What a tick may hand to the renderer, judged against the world [w] its
    handler starts from (the timer already advanced). *)
Definition logged (w : World) (e : Effect) : Prop :=
  let p := currentPhase (simulationState w) in
  match e with
  | UpdateInstructions shown =>
      shown = nextPhase p
      /\ Num.ltb (threshold p) (phaseTimer (simulationState w)) = true
  | SendPacket a b type =>
      In a (nodes w) /\ In b (nodes w)
      /\ match type with
         | peer => p = DISCOVERY /\ a <> b /\ lists w a b = false
         | block => p = SYNCING /\ bidirectional w a b = true
         | transaction => p = PROCESSING /\ bidirectional w a b = true
         end
  | ShowSyncProgress node progress =>
      p = SYNCING /\ In node (nodes w)
      /\ progress = Num.rem (phaseTimer (simulationState w)) 2000 / 2000
  | SetProcessing node isProcessing =>
      p = PROCESSING /\ In node (nodes w) /\ isProcessing = true
  | CreateLines _ _ => False
  | CreateSphere node => p = NETWORK_CHANGES /\ node = nextRef w
  | FadeOut node =>
      p = NETWORK_CHANGES /\ In node (nodes w) /\ (2 < count w)%nat
  end.

Definition isProgress (e : Effect) : bool :=
  match e with ShowSyncProgress _ _ => true | _ => false end.

(** ** The text layout *)

(** The title, the instructions line and their shadow layers, with the two
    properties the page rewrites after creation, in pixels. *)
Module Layout.

Record TextBlock := mkTextBlock { fontSize : Z; top : Z }.

Record t := mkLayout {
  titleText : TextBlock;
  titleShadows : list TextBlock;
  instructionsText : TextBlock;
  instructionsShadows : list TextBlock
}.

Definition shadowLayers : nat := 4.
Definition shadowOffset : Z := 2.
Definition instructionsShadowLayers : nat := 3.
Definition instructionsShadowOffset : Z := 1.

(** [arr.forEach((x, i) => ...)] rewriting every element. *)
Definition forEachIndexed {A B} (f : A -> Z -> B) (arr : list A) : list B :=
  map (fun p => f (snd p) (Z.of_nat (fst p)))
    (combine (seq 0 (List.length arr)) arr).

(** The texts as [createScene] builds them; the title shadows are added
    to the texture but kept in no variable. *)
Definition initial : t :=
  let titleText := mkTextBlock 32 20 in
  let instructionsText := mkTextBlock 24 140 in
  mkLayout titleText
    (map (fun i => mkTextBlock (fontSize titleText)
                     (20 + Z.of_nat i * shadowOffset)%Z)
       (seq 0 shadowLayers))
    instructionsText
    (map (fun i => mkTextBlock (fontSize instructionsText)
                     (140 + Z.of_nat i * instructionsShadowOffset)%Z)
       (seq 0 instructionsShadowLayers)).

(** The first [resize] listener, for [window.innerWidth = width]. *)
Definition resize (width : Z) (l : t) : t :=
  let '(titleSize, instructionsSize, instructionsTop) :=
    if (width <? 600)%Z then (24, 18, 120)%Z
    else if (width <? 1024)%Z then (28, 20, 130)%Z
    else (32, 24, 140)%Z in
  mkLayout
    (mkTextBlock titleSize (top (titleText l)))
    (titleShadows l)
    (mkTextBlock instructionsSize instructionsTop)
    (forEachIndexed
       (fun _ i => mkTextBlock instructionsSize
                     (instructionsTop + i * instructionsShadowOffset)%Z)
       (instructionsShadows l)).

(** The listener run for each width of a list, in order. *)
Definition resizes (widths : list Z) (l : t) : t :=
  fold_left (fun l width => resize width l) widths l.

End Layout.

(** ** The scheduler proper *)

Section Simulation.

(** [Math.cos], [Math.sin] and [Math.PI]. *)
Variables (Math_cos Math_sin : Q -> Q) (Math_PI : Q).

Set Default Proof Using "Type".

(** [new BABYLON.Vector3(r * Math.cos(angle), 0, r * Math.sin(angle))]. *)
Definition ringPosition (r angle : Q) : Vector3 :=
  mkVector3 (r * Math_cos angle) 0 (r * Math_sin angle).

(** [nodes.some(node => Distance(node.mesh.position, position) < minDistance)]. *)
Definition isTooClose (w : World) (pos : Vector3) (minDistance : Q) : bool :=
  existsb (fun node => distanceLt (position (heap w node)) pos minDistance)
    (nodes w).

(** State of the placement search when its loop is left. *)
Record Placement := mkPlacement {
  angle : Q;
  candidate : Vector3;
  attempts : nat;
  cursor : nat                  (* next unused value of Math.random() *)
}.

(** The [do { ... } while (attempts < 10)] loop of the add branch, entered
    with the current [attempts]; [c] numbers the next [Math.random()]. *)
Equations? placementLoop (env : TickEnv) (w : World) (n c : nat) : Placement
  by wf (10 - n)%nat lt :=
  placementLoop env w n c
    with isTooClose w
           (ringPosition radius (random env c * Math_PI * 2)) (radius * 0.8) => {
    | false :=
        mkPlacement (random env c * Math_PI * 2)
          (ringPosition radius (random env c * Math_PI * 2)) n (S c);
    | true with lt_dec (S n) 10 => {
        | left _ := placementLoop env w (S n) (S c);
        | right _ :=
            mkPlacement (random env c * Math_PI * 2)
              (ringPosition radius (random env c * Math_PI * 2)) (S n) (S c) } }.
Proof. clear placementLoop. do 9 (destruct n as [|n]; [lia|]). lia. Qed.

(** The position given to a joining node: the loop's candidate, or after
    ten rejected candidates a point at the last angle on a wider ring. *)
Definition choosePosition (env : TickEnv) (w : World) : Vector3 :=
  let p := placementLoop env w 0 1 in
  if (10 <=? attempts p)%nat then
    let alternateRadius := radius * (1 + random env (cursor p) * 0.4) in
    ringPosition alternateRadius (angle p)
  else candidate p.

(** The add branch of the network-changes handler: the position search,
    then [nodes.push(new BitcoinNode(scene, position, `node-${Date.now()}`))]
    and [nodeCount = nodes.length]. *)
Definition addNode (env : TickEnv) (w : World) : World :=
  syncNodeCount
    (pushNewNode (choosePosition env w)
       (String.append "node-" (Num.toString (now env))) w).

(** The forced second node, [`node-1`] opposite the first one. *)
Definition addSecondNode (w : World) : World :=
  syncNodeCount (pushNewNode (ringPosition radius Math_PI) "node-1" w).

Definition handleDiscoveryPhase (env : TickEnv) (w : World) : Outcome :=
  let st := simulationState w in
  andThen
    (if Num.ltb (Num.rem (currentStep st) (3 / speed st)) 1 then
       let len := List.length (nodes w) in
       match Num.index (nodes w) (Num.floorMul (random env 0) len),
             Num.index (nodes w) (Num.floorMul (random env 1) len) with
       | Some sourceNode, Some targetNode =>
           if negb (Nat.eqb sourceNode targetNode)
              && negb (JSSet.has (nodeId (heap w targetNode))
                         (connections (heap w sourceNode)))
           then Completed
                  (setTimeout (ConnectTimeout sourceNode targetNode (500 / speed st))
                     (sendPacket sourceNode targetNode peer w))
           else Completed w
       | None, None => Completed w
       | _, _ => TypeError w
       end
     else Completed w)
    (fun w1 =>
       if Num.ltb 5000 (phaseTimer (simulationState w1))
       then Completed (enterPhase SYNCING w1)
       else Completed w1).

(** One iteration of [nodes.forEach] in the syncing handler; the second
    component numbers the next [Math.random()]. *)
Definition syncOne (env : TickEnv) (acc : World * nat) (node : ref) : World * nat :=
  let (w, c) := acc in
  let st := simulationState w in
  let progress := Num.rem (phaseTimer st) 2000 / 2000 in
  let w1 := showSyncProgress node progress w in
  if Num.ltb (random env c) (0.05 * speed st)
     && (0 <? JSSet.size (connections (heap w1 node)))%nat
  then
    match pickRandomConnectedPeer w1 node (random env (S c)) with
    | Some targetNode =>
        if bidirectional w1 node targetNode
        then (sendPacket node targetNode block w1, S (S c))
        else (w1, S (S c))
    | None => (w1, S (S c))
    end
  else (w1, S c).

Definition handleSyncingPhase (env : TickEnv) (w : World) : Outcome :=
  let w1 := fst (fold_left (syncOne env) (nodes w) (w, O)) in
  if Num.ltb 8000 (phaseTimer (simulationState w1))
  then Completed (enterPhase PROCESSING w1)
  else Completed w1.

Definition handleProcessingPhase (env : TickEnv) (w : World) : Outcome :=
  let st := simulationState w in
  andThen
    (if Num.ltb (Num.rem (currentStep st) (5 / speed st)) 1 then
       match Num.index (nodes w)
               (Num.floorMul (random env 0) (List.length (nodes w))) with
       | None => TypeError w
       | Some sourceNode =>
           if (0 <? JSSet.size (connections (heap w sourceNode)))%nat then
             match pickRandomConnectedPeer w sourceNode (random env 1) with
             | Some targetNode =>
                 if bidirectional w sourceNode targetNode
                 then Completed
                        (setTimeout (ProcessingTimeout sourceNode (1000 / speed st))
                           (setProcessing sourceNode true
                              (sendPacket sourceNode targetNode transaction w)))
                 else Completed w
             | None => Completed w
             end
           else Completed w
       end
     else Completed w)
    (fun w1 =>
       if Num.ltb 6000 (phaseTimer (simulationState w1))
       then Completed (enterPhase NETWORK_CHANGES w1)
       else Completed w1).

Definition handleNetworkChanges (env : TickEnv) (w : World) : Outcome :=
  let st := simulationState w in
  andThen
    (if Num.ltb (Num.rem (phaseTimer st) 2000) 20
        && (2 <=? List.length (nodes w))%nat
     then
       let minNodes := 2%nat in
       let maxNodes := Num.max 20 (initialNodeCount st * 1.5) in
       if Num.ltb (random env 0) 0.5 && (minNodes <? List.length (nodes w))%nat
       then
         removeNode (Num.floorMul (random env 1) (List.length (nodes w))) w
       else if Num.ltb (inject_Z (Z.of_nat (List.length (nodes w)))) maxNodes
       then Completed (addNode env w)
       else Completed w
     else Completed w)
    (fun w1 =>
       if Num.ltb 7000 (phaseTimer (simulationState w1))
       then
         Completed
           (enterPhase DISCOVERY
              (if (List.length (nodes w1) <? 2)%nat then addSecondNode w1 else w1))
       else Completed w1).

(** The callback added to [scene.onBeforeRenderObservable]. *)
Definition tick (env : TickEnv) (w : World) : Outcome :=
  if negb (isRunning (simulationState w)) then Completed w
  else
    let w1 := advanceTimer env w in
    match currentPhase (simulationState w1) with
    | DISCOVERY =>
        andThen (handleDiscoveryPhase env w1)
          (fun w2 =>
             if Num.ltb 5000 (phaseTimer (simulationState w2))
             then Completed (enterPhase SYNCING w2)
             else Completed w2)
    | SYNCING =>
        andThen (handleSyncingPhase env w1)
          (fun w2 =>
             if Num.ltb 8000 (phaseTimer (simulationState w2))
             then Completed (enterPhase PROCESSING w2)
             else Completed w2)
    | PROCESSING =>
        andThen (handleProcessingPhase env w1)
          (fun w2 =>
             if Num.ltb 6000 (phaseTimer (simulationState w2))
             then Completed (enterPhase NETWORK_CHANGES w2)
             else Completed w2)
    | NETWORK_CHANGES =>
        andThen (handleNetworkChanges env w1)
          (fun w2 =>
             if Num.ltb 7000 (phaseTimer (simulationState w2))
             then
               Completed
                 (enterPhase DISCOVERY
                    (if (List.length (nodes w2) <? 2)%nat
                     then addSecondNode w2 else w2))
             else Completed w2)
    end.

(** One event of the page: a frame, a button, or a timer that fires.
    Timers fire in any order and at any moment. *)
Inductive step : World -> World -> Prop :=
| step_tick env w : validEnv env -> step w (worldOf (tick env w))
| step_playPause w : step w (playPause w)
| step_toggleTheme w : step w (toggleTheme w)
| step_timeout k w : step w (fireTimeout k w).

Inductive steps : World -> World -> Prop :=
| steps_refl w : steps w w
| steps_snoc w1 w2 w3 : steps w1 w2 -> step w2 w3 -> steps w1 w3.

Definition reachable (w : World) : Prop := steps initialWorld w.

(** Ticks in a row, stopping at the first [TypeError]. *)
Fixpoint ticks (envs : list TickEnv) (w : World) : Outcome :=
  match envs with
  | [] => Completed w
  | env :: rest => andThen (tick env w) (ticks rest)
  end.

(** What the callback does after the handler's own work in a tick of
    phase [p]: above the threshold it enters the next phase, after the
    forced add when the network-changes phase ends with fewer than two
    nodes. *)
Definition finish (p : Phase) (wb : World) : World :=
  if Num.ltb (threshold p) (phaseTimer (simulationState wb))
  then enterPhase (nextPhase p)
         (match p with
          | NETWORK_CHANGES =>
              if (count wb <? 2)%nat then addSecondNode wb else wb
          | _ => wb
          end)
  else wb.

(** The handler's own work in a tick, by cases on what it decides. *)
Inductive body (env : TickEnv) (w : World) : Outcome -> Prop :=
| body_idle : body env w (Completed w)
| body_throw : body env w (TypeError w)
| body_discover s t :
    currentPhase (simulationState w) = DISCOVERY ->
    Num.index (nodes w) (Num.floorMul (random env 0) (count w)) = Some s ->
    Num.index (nodes w) (Num.floorMul (random env 1) (count w)) = Some t ->
    s <> t -> lists w s t = false ->
    body env w
      (Completed
         (setTimeout (ConnectTimeout s t (500 / speed (simulationState w)))
            (sendPacket s t peer w)))
| body_sync :
    currentPhase (simulationState w) = SYNCING ->
    body env w (Completed (fst (fold_left (syncOne env) (nodes w) (w, O))))
| body_process s t :
    currentPhase (simulationState w) = PROCESSING ->
    Num.index (nodes w) (Num.floorMul (random env 0) (count w)) = Some s ->
    pickRandomConnectedPeer w s (random env 1) = Some t ->
    bidirectional w s t = true ->
    body env w
      (Completed
         (setTimeout (ProcessingTimeout s (1000 / speed (simulationState w)))
            (setProcessing s true (sendPacket s t transaction w))))
| body_remove :
    currentPhase (simulationState w) = NETWORK_CHANGES ->
    (2 < count w)%nat ->
    body env w (removeNode (Num.floorMul (random env 1) (count w)) w)
| body_add :
    currentPhase (simulationState w) = NETWORK_CHANGES ->
    (2 <= count w)%nat ->
    inject_Z (Z.of_nat (count w)) < maxNodes w ->
    body env w (Completed (addNode env w)).

(** * Properties *)

(** ** Numbers and arrays *)

Lemma ltb_lt (a b : Q) : Num.ltb a b = true <-> a < b.
Proof. unfold Num.ltb, Qlt. apply Z.ltb_lt. Qed.

Lemma ltb_ge (a b : Q) : Num.ltb a b = false <-> b <= a.
Proof. unfold Num.ltb, Qle. apply Z.ltb_ge. Qed.

Lemma floorMul_range (r : Q) (n : nat) :
  0 <= r -> r < 1 -> (0 < n)%nat ->
  (0 <= Num.floorMul r n < Z.of_nat n)%Z.
Proof.
  intros Hr0 Hr1 Hn. unfold Num.floorMul.
  assert (Hn' : 0 < inject_Z (Z.of_nat n)).
  { change 0 with (inject_Z 0). rewrite <- Zlt_Qlt. lia. }
  split.
  - change 0%Z with (Qfloor (inject_Z 0)). apply Qfloor_resp_le.
    change (inject_Z 0) with 0. apply Qmult_le_0_compat; [assumption|].
    apply Qlt_le_weak; assumption.
  - rewrite Zlt_Qlt. eapply Qle_lt_trans; [apply Qfloor_le|].
    setoid_replace (inject_Z (Z.of_nat n)) with (1 * inject_Z (Z.of_nat n)) at 2 by ring.
    apply Qmult_lt_compat_r; assumption.
Qed.

Lemma index_Some {A} (arr : list A) (i : Z) :
  (0 <= i < Z.of_nat (List.length arr))%Z ->
  exists x, Num.index arr i = Some x /\ nth_error arr (Z.to_nat i) = Some x /\ In x arr.
Proof.
  intros Hi. unfold Num.index.
  destruct (Z.ltb_spec i 0); [lia|].
  destruct (nth_error arr (Z.to_nat i)) eqn:E.
  - exists a. repeat split; auto. eapply nth_error_In; eauto.
  - apply nth_error_None in E. lia.
Qed.

Lemma index_In {A} (arr : list A) (i : Z) (x : A) :
  Num.index arr i = Some x -> In x arr.
Proof.
  unfold Num.index. destruct (i <? 0)%Z; [discriminate|].
  apply nth_error_In.
Qed.

Lemma removeAt_length {A} (n : nat) (arr : list A) :
  (n < List.length arr)%nat ->
  List.length (Num.removeAt n arr) = Nat.pred (List.length arr).
Proof.
  revert n. induction arr as [|x rest IH]; intros n Hn; simpl in *; [lia|].
  destruct n; [reflexivity|]. simpl. rewrite IH by lia.
  apply Nat.succ_pred_pos. lia.
Qed.

Lemma removeAt_length_ge {A} (n : nat) (arr : list A) :
  (Nat.pred (List.length arr) <= List.length (Num.removeAt n arr) <= List.length arr)%nat.
Proof.
  revert n. induction arr as [|x rest IH]; intros n; simpl; [lia|].
  destruct n; simpl; [lia|]. specialize (IH n). lia.
Qed.

Lemma removeAt_In {A} (n : nat) (arr : list A) (x : A) :
  In x (Num.removeAt n arr) -> In x arr.
Proof.
  revert n. induction arr as [|y rest IH]; intros n; simpl; [auto|].
  destruct n; simpl; [auto|]. intros [->|H]; [now left|]. right. eauto.
Qed.

Lemma removeAt_NoDup {A} (n : nat) (arr : list A) :
  NoDup arr -> NoDup (Num.removeAt n arr).
Proof.
  revert n. induction arr as [|y rest IH]; intros n Hnd; simpl; [constructor|].
  inversion Hnd; subst. destruct n; [assumption|].
  constructor; [|auto]. intro Hin. apply removeAt_In in Hin. contradiction.
Qed.

Lemma removeAt_not_In {A} (n : nat) (arr : list A) (x : A) :
  NoDup arr -> nth_error arr n = Some x -> ~ In x (Num.removeAt n arr).
Proof.
  revert n. induction arr as [|y rest IH]; intros n Hnd Hn; [destruct n; discriminate|].
  inversion Hnd; subst. destruct n; simpl in *.
  - injection Hn as ->. assumption.
  - intros [->|Hin].
    + apply nth_error_In in Hn. contradiction.
    + eapply IH; eauto.
Qed.


Lemma splice1_in_range {A} (arr : list A) (i : Z) :
  (0 <= i < Z.of_nat (List.length arr))%Z ->
  Num.splice1 arr i = Num.removeAt (Z.to_nat i) arr.
Proof.
  intros Hi. unfold Num.splice1.
  destruct (Z.ltb_spec i 0); [lia|]. now rewrite Z.min_l by lia.
Qed.

Lemma splice1_removeAt {A} (arr : list A) (i : Z) :
  exists n, Num.splice1 arr i = Num.removeAt n arr.
Proof. unfold Num.splice1. eauto. Qed.

(** ** Sets of strings *)

Lemma has_In (x : string) (s : JSSet.t) : JSSet.has x s = true <-> In x s.
Proof.
  unfold JSSet.has. rewrite existsb_exists. split.
  - intros (y & Hy & E). apply String.eqb_eq in E. now subst.
  - intros H. exists x. split; [assumption|apply String.eqb_refl].
Qed.

Lemma has_add (y x : string) (s : JSSet.t) :
  JSSet.has y (JSSet.add x s) = String.eqb y x || JSSet.has y s.
Proof.
  unfold JSSet.add. destruct (JSSet.has x s) eqn:E.
  - destruct (String.eqb_spec y x) as [->|]; simpl; [now rewrite E|reflexivity].
  - unfold JSSet.has. rewrite existsb_app. simpl.
    rewrite orb_false_r. apply orb_comm.
Qed.

Lemma has_delete (y x : string) (s : JSSet.t) :
  JSSet.has y (JSSet.delete x s) = negb (String.eqb x y) && JSSet.has y s.
Proof.
  unfold JSSet.has, JSSet.delete. induction s as [|z s IH]; simpl.
  - now rewrite andb_false_r.
  - destruct (String.eqb_spec x z) as [->|Hxz]; simpl.
    + rewrite IH. destruct (String.eqb_spec y z) as [->|Hyz]; simpl.
      * rewrite String.eqb_refl. reflexivity.
      * reflexivity.
    + rewrite IH. destruct (String.eqb_spec y z) as [->|Hyz]; simpl.
      * destruct (String.eqb_spec x z); [contradiction|reflexivity].
      * reflexivity.
Qed.

Lemma delete_idem (x : string) (s : JSSet.t) :
  JSSet.delete x (JSSet.delete x s) = JSSet.delete x s.
Proof.
  unfold JSSet.delete. induction s as [|z s IH]; simpl; [reflexivity|].
  destruct (negb (String.eqb x z)) eqn:E; simpl; [rewrite E, IH|]; auto.
Qed.

(** ** The store *)

Lemma store_same (h : Heap) (r : ref) (o : BitcoinNode) : store h r o r = o.
Proof. unfold store. now rewrite Nat.eqb_refl. Qed.

Lemma nodeId_setConnections (h : Heap) (r : ref) (c : JSSet.t) (x : ref) :
  nodeId (setConnections h r c x) = nodeId (h x).
Proof.
  unfold setConnections, store.
  destruct (Nat.eqb_spec x r) as [->|]; reflexivity.
Qed.

Lemma position_setConnections (h : Heap) (r : ref) (c : JSSet.t) (x : ref) :
  position (setConnections h r c x) = position (h x).
Proof.
  unfold setConnections, store.
  destruct (Nat.eqb_spec x r) as [->|]; reflexivity.
Qed.

Lemma connections_setConnections (h : Heap) (r : ref) (c : JSSet.t) (x : ref) :
  connections (setConnections h r c x)
  = if Nat.eqb x r then c else connections (h x).
Proof.
  unfold setConnections, store. destruct (Nat.eqb x r); reflexivity.
Qed.

(** ** connectTo *)

Lemma connectTo_frame (a b : ref) (w : World) :
  nodes (connectTo a b w) = nodes w
  /\ simulationState (connectTo a b w) = simulationState w
  /\ timers (connectTo a b w) = timers w
  /\ nextRef (connectTo a b w) = nextRef w
  /\ notifications (connectTo a b w) = notifications w.
Proof.
  unfold connectTo, notifications.
  destruct (JSSet.has _ _); simpl; repeat split; auto.
  rewrite filter_app. simpl. now rewrite app_nil_r.
Qed.

Lemma nodeId_connectTo (a b : ref) (w : World) (x : ref) :
  nodeId (heap (connectTo a b w) x) = nodeId (heap w x).
Proof.
  unfold connectTo. destruct (JSSet.has _ _); simpl; [reflexivity|].
  now rewrite !nodeId_setConnections.
Qed.

(** After [a.connectTo(b)], [x] lists [y] iff it did before, or the call
    was not an early return and the pair is one of the two it adds. *)
Lemma lists_connectTo (a b : ref) (w : World) (x y : ref) :
  lists (connectTo a b w) x y
  = lists w x y
    || negb (lists w a b)
       && (Nat.eqb x a && String.eqb (nodeId (heap w y)) (nodeId (heap w b))
           || Nat.eqb x b && String.eqb (nodeId (heap w y)) (nodeId (heap w a))).
Proof.
  unfold lists at 1. rewrite nodeId_connectTo.
  unfold connectTo, lists.
  destruct (JSSet.has (nodeId (heap w b)) (connections (heap w a))) eqn:Hab; simpl.
  - now rewrite orb_false_r.
  - repeat rewrite ?connections_setConnections, ?nodeId_setConnections.
    destruct (Nat.eqb_spec x b) as [Hxb|Hxb];
      destruct (Nat.eqb_spec b a) as [Hba|Hba];
      destruct (Nat.eqb_spec x a) as [Hxa|Hxa];
      subst; try contradiction; try congruence;
      rewrite ?has_add; simpl;
      repeat match goal with
        | |- context [String.eqb ?s ?t] => destruct (String.eqb s t)
        | |- context [JSSet.has ?s ?t] => destruct (JSSet.has s t)
        end; reflexivity.
Qed.

(** ** shutdown and removeNode *)

Lemma shutdown_fold (this : ref) (arr : list ref) (h : Heap) :
  let h' := fold_left
              (fun h node =>
                 if negb (Nat.eqb node this)
                 then removeConnection node (nodeId (h this)) h
                 else h) arr h in
  (forall x, nodeId (h' x) = nodeId (h x))
  /\ (forall x, position (h' x) = position (h x))
  /\ (forall x, connections (h' x)
                = if existsb (Nat.eqb x) arr && negb (Nat.eqb x this)
                  then JSSet.delete (nodeId (h this)) (connections (h x))
                  else connections (h x)).
Proof.
  revert h. induction arr as [|node rest IH]; intros h; simpl.
  - repeat split; reflexivity.
  - destruct (IH (if negb (Nat.eqb node this)
                  then removeConnection node (nodeId (h this)) h else h))
      as (Hid & Hpos & Hconn).
    destruct (Nat.eqb_spec node this) as [->|Hne]; simpl in *.
    + repeat split; auto. intros x. rewrite Hconn.
      destruct (Nat.eqb_spec x this) as [->|]; simpl; [|reflexivity].
      now rewrite !andb_false_r.
    + unfold removeConnection in *.
      split; [|split]; intros x.
      * now rewrite Hid, nodeId_setConnections.
      * now rewrite Hpos, position_setConnections.
      * rewrite Hconn, nodeId_setConnections, connections_setConnections.
        destruct (Nat.eqb_spec x node) as [->|Hxn]; simpl.
        -- destruct (Nat.eqb_spec node this); [contradiction|]. simpl.
           rewrite andb_true_r.
           destruct (existsb (Nat.eqb node) rest); [apply delete_idem|reflexivity].
        -- reflexivity.
Qed.

Lemma shutdown_frame (this : ref) (arr : list ref) (w : World) :
  nodes (shutdown this arr w) = nodes w
  /\ simulationState (shutdown this arr w) = simulationState w
  /\ timers (shutdown this arr w) = timers w
  /\ nextRef (shutdown this arr w) = nextRef w
  /\ notifications (shutdown this arr w) = notifications w.
Proof.
  unfold shutdown, notifications. simpl. repeat split.
  rewrite filter_app. simpl. now rewrite app_nil_r.
Qed.

Lemma nodeId_shutdown (this : ref) (arr : list ref) (w : World) (x : ref) :
  nodeId (heap (shutdown this arr w) x) = nodeId (heap w x).
Proof. unfold shutdown. simpl. apply shutdown_fold. Qed.

(** After [this.shutdown(scene, arr)], [x] lists [y] iff it did before and
    the entry was not deleted. *)
Lemma lists_shutdown (this : ref) (arr : list ref) (w : World) (x y : ref) :
  lists (shutdown this arr w) x y
  = lists w x y
    && negb (existsb (Nat.eqb x) arr && negb (Nat.eqb x this)
             && String.eqb (nodeId (heap w this)) (nodeId (heap w y))).
Proof.
  unfold lists. rewrite nodeId_shutdown. unfold shutdown. simpl.
  destruct (shutdown_fold this arr (heap w)) as (_ & _ & Hconn).
  rewrite Hconn.
  destruct (existsb (Nat.eqb x) arr && negb (Nat.eqb x this)); simpl.
  - rewrite has_delete.
    destruct (String.eqb _ _); simpl; [now rewrite andb_false_r|now rewrite andb_true_r].
  - now rewrite andb_true_r.
Qed.

Lemma existsb_eqb_In (x : ref) (arr : list ref) :
  existsb (Nat.eqb x) arr = true <-> In x arr.
Proof.
  rewrite existsb_exists. split.
  - intros (y & Hy & E). apply Nat.eqb_eq in E. now subst.
  - intros H. exists x. split; [assumption|apply Nat.eqb_refl].
Qed.

Lemma removeNode_Completed (index : Z) (w w' : World) :
  removeNode index w = Completed w' ->
  exists this,
    Num.index (nodes w) index = Some this
    /\ nodes w' = Num.splice1 (nodes w) index
    /\ w' = syncNodeCount
              (shutdown this (Num.splice1 (nodes w) index)
                 (withNodes (Num.splice1 (nodes w) index) w)).
Proof.
  unfold removeNode. destruct (Num.index (nodes w) index) as [this|]; [|discriminate].
  intros H. injection H as <-. exists this. simpl. auto.
Qed.

Lemma removeNode_in_range (index : Z) (w : World) :
  (0 <= index < Z.of_nat (List.length (nodes w)))%Z ->
  exists this w',
    Num.index (nodes w) index = Some this
    /\ removeNode index w = Completed w'
    /\ nodes w' = Num.removeAt (Z.to_nat index) (nodes w).
Proof.
  intros Hi. destruct (index_Some (nodes w) index Hi) as (this & E & _ & _).
  exists this. unfold removeNode. rewrite E. eexists. repeat split.
  simpl. now apply splice1_in_range.
Qed.

Lemma add_idem (x : string) (s : JSSet.t) :
  JSSet.add x (JSSet.add x s) = JSSet.add x s.
Proof.
  unfold JSSet.add at 1. now rewrite has_add, String.eqb_refl.
Qed.

(** What [a.connectTo(b)] writes when it is not an early return. *)
Lemma connections_connectTo (a b : ref) (w : World) :
  lists w a b = false ->
  connections (heap (connectTo a b w) a)
  = JSSet.add (nodeId (heap w b)) (connections (heap w a))
  /\ connections (heap (connectTo a b w) b)
     = JSSet.add (nodeId (heap w a)) (connections (heap w b))
  /\ forall x, x <> a -> x <> b ->
               connections (heap (connectTo a b w) x) = connections (heap w x).
Proof.
  unfold lists, connectTo. intros ->. simpl.
  split; [|split]; [| |intros x Hxa Hxb];
    repeat rewrite ?connections_setConnections, ?nodeId_setConnections;
    rewrite ?Nat.eqb_refl.
  - destruct (Nat.eqb_spec a b) as [->|Hab];
      [rewrite ?Nat.eqb_refl; apply add_idem|reflexivity].
  - destruct (Nat.eqb_spec b a) as [->|Hab];
      [rewrite ?Nat.eqb_refl; apply add_idem|reflexivity].
  - destruct (Nat.eqb_spec x b); [contradiction|].
    destruct (Nat.eqb_spec x a); [contradiction|reflexivity].
Qed.

Lemma connectTo_noop (a b : ref) (w : World) :
  lists w a b = true -> connectTo a b w = w.
Proof. unfold lists, connectTo. now intros ->. Qed.

Lemma connectTo_adds_both (a b : ref) (w : World) :
  lists (connectTo a b w) a b = true
  /\ (lists w a b = false -> lists (connectTo a b w) b a = true).
Proof.
  rewrite !lists_connectTo, !Nat.eqb_refl, !String.eqb_refl. split.
  - destruct (lists w a b); simpl; rewrite ?orb_true_r; reflexivity.
  - intros ->. simpl. rewrite ?orb_true_r; reflexivity.
Qed.

Lemma connectTo_idempotent (a b : ref) (w : World) :
  connectTo a b (connectTo a b w) = connectTo a b w.
Proof. apply connectTo_noop, connectTo_adds_both. Qed.






(** The node taken out by [removeNode] is no longer in the array when the
    array held it once. *)
Lemma removeNode_gone (index : Z) (w : World) (this : ref) :
  NoDup (nodes w) -> Num.index (nodes w) index = Some this ->
  Num.splice1 (nodes w) index = Num.removeAt (Z.to_nat index) (nodes w)
  /\ ~ In this (Num.splice1 (nodes w) index).
Proof.
  intros Hnd E. unfold Num.index in E.
  destruct (Z.ltb_spec index 0); [discriminate|].
  assert (Hr : (0 <= index < Z.of_nat (List.length (nodes w)))%Z).
  { split; [assumption|].
    assert (Z.to_nat index < List.length (nodes w))%nat
      by (apply nth_error_Some; congruence). lia. }
  rewrite splice1_in_range by assumption. split; [reflexivity|].
  now apply removeAt_not_In.
Qed.

Lemma removeNode_lists (index : Z) (w w' : World) (this x y : ref) :
  NoDup (nodes w) -> Num.index (nodes w) index = Some this ->
  removeNode index w = Completed w' -> In x (nodes w') ->
  lists w' x y
  = lists w x y && negb (String.eqb (nodeId (heap w this)) (nodeId (heap w y))).
Proof.
  intros Hnd E H Hx. apply removeNode_Completed in H.
  destruct H as (this' & E' & Hn & ->). rewrite E in E'. injection E' as <-.
  simpl in Hx.
  change (lists (syncNodeCount ?v) x y) with (lists v x y).
  rewrite lists_shutdown.
  change (lists (withNodes ?l w) x y) with (lists w x y).
  change (heap (withNodes ?l w)) with (heap w).
  destruct (removeNode_gone index w this Hnd E) as (_ & Hgone).
  assert (Hex : existsb (Nat.eqb x) (Num.splice1 (nodes w) index) = true)
    by now apply existsb_eqb_In.
  rewrite Hex. destruct (Nat.eqb_spec x this) as [->|]; [contradiction|].
  reflexivity.
Qed.




(** The peer picked for [node] is in the array and listed by [node]. *)
Lemma pick_lists (w : World) (node : ref) (r : Q) (t : ref) :
  pickRandomConnectedPeer w node r = Some t ->
  In t (nodes w) /\ lists w node t = true.
Proof.
  unfold pickRandomConnectedPeer.
  destruct (Num.index _ _) as [targetNodeId|] eqn:E; [|discriminate].
  intros H. apply find_some in H. destruct H as [Hin Heq].
  apply String.eqb_eq in Heq. split; [assumption|].
  unfold lists. rewrite Heq. apply has_In. eapply index_In; eauto.
Qed.

Lemma quiet_refl (w : World) : quiet w w.
Proof. unfold quiet. repeat split; auto. Qed.

Lemma quiet_trans (w1 w2 w3 : World) : quiet w1 w2 -> quiet w2 w3 -> quiet w1 w3.
Proof.
  unfold quiet. intros (A1 & A2 & A3 & A4 & A5 & A6) (B1 & B2 & B3 & B4 & B5 & B6).
  repeat split; try congruence. auto.
Qed.

Lemma notifications_emit (e : Effect) (w : World) :
  notifications (emit e w)
  = (notifications w + if isNotification e then 1 else 0)%nat.
Proof.
  unfold notifications, emit. simpl. rewrite filter_app, length_app. simpl.
  destruct (isNotification e); reflexivity.
Qed.

Lemma quiet_emit (e : Effect) (w : World) :
  isNotification e = false -> quiet w (emit e w).
Proof.
  intros He. unfold quiet. rewrite notifications_emit, He. simpl.
  repeat split; auto.
Qed.

Lemma quiet_sendPacket (a b : ref) (ty : PacketType) (w : World) :
  quiet w (sendPacket a b ty w).
Proof.
  unfold sendPacket. destruct (_ && _); [apply quiet_refl|now apply quiet_emit].
Qed.

Lemma quiet_setTimeout (t : Timer) (w : World) :
  match t with ConnectTimeout a b _ => a <> b | ProcessingTimeout _ _ => True end ->
  quiet w (setTimeout t w).
Proof.
  intros Ht. unfold quiet, setTimeout, timersDistinct. simpl.
  repeat split; auto. intros Hd a b d Hin.
  apply in_app_or in Hin. destruct Hin as [Hin|[E|[]]]; [eauto|].
  subst t. exact Ht.
Qed.

Lemma quiet_calm (w w' : World) : quiet w w' -> calm w w'.
Proof.
  intros (A1 & A2 & A3 & A4 & A5 & A6). unfold calm, nodesChange, distinctNodes.
  rewrite A1, A2, A4. split; [reflexivity|]. split; [assumption|].
  split; [assumption|]. split; [now left|]. intros Hd. exact Hd.
Qed.

Lemma distinctNodes_push (pos : Vector3) (id : string) (w : World) :
  distinctNodes w -> distinctNodes (pushNewNode pos id w).
Proof.
  intros [Hnd Hlt]. unfold distinctNodes, pushNewNode. simpl. split.
  - apply NoDup_app; [assumption|repeat constructor; intros []|].
    intros r Hr [<-|[]]. apply Hlt in Hr. lia.
  - intros r Hr. apply in_app_or in Hr. destruct Hr as [Hr|[<-|[]]]; [|lia].
    apply Hlt in Hr. lia.
Qed.

Lemma distinctNodes_removeAt (n : nat) (w : World) :
  distinctNodes w -> distinctNodes (withNodes (Num.removeAt n (nodes w)) w).
Proof.
  intros [Hnd Hlt]. unfold distinctNodes. simpl. split.
  - now apply removeAt_NoDup.
  - intros r Hr. apply removeAt_In in Hr. auto.
Qed.

Lemma syncNodeCount_frame (w : World) :
  clock (simulationState (syncNodeCount w)) = clock (simulationState w)
  /\ nodes (syncNodeCount w) = nodes w
  /\ heap (syncNodeCount w) = heap w
  /\ timers (syncNodeCount w) = timers w
  /\ notifications (syncNodeCount w) = notifications w.
Proof. repeat split. Qed.

Lemma pushNewNode_frame (pos : Vector3) (id : string) (w : World) :
  simulationState (pushNewNode pos id w) = simulationState w
  /\ nodes (pushNewNode pos id w) = nodes w ++ [nextRef w]
  /\ timers (pushNewNode pos id w) = timers w
  /\ notifications (pushNewNode pos id w) = notifications w
  /\ heap (pushNewNode pos id w) (nextRef w) = mkBitcoinNode id JSSet.empty pos
  /\ nextRef (pushNewNode pos id w) = S (nextRef w).
Proof.
  unfold pushNewNode, notifications. simpl. rewrite store_same.
  repeat split. rewrite filter_app. simpl. now rewrite app_nil_r.
Qed.

Lemma enterPhase_frame (p : Phase) (w : World) :
  currentPhase (simulationState (enterPhase p w)) = p
  /\ phaseTimer (simulationState (enterPhase p w)) = 0
  /\ notifications (enterPhase p w) = S (notifications w)
  /\ effects (enterPhase p w) = effects w ++ [UpdateInstructions p]
  /\ nodes (enterPhase p w) = nodes w
  /\ heap (enterPhase p w) = heap w
  /\ timers (enterPhase p w) = timers w
  /\ speed (simulationState (enterPhase p w)) = speed (simulationState w)
  /\ isRunning (simulationState (enterPhase p w)) = isRunning (simulationState w)
  /\ initialNodeCount (simulationState (enterPhase p w))
     = initialNodeCount (simulationState w)
  /\ currentStep (simulationState (enterPhase p w))
     = currentStep (simulationState w).
Proof.
  unfold enterPhase, updateInstructions. rewrite notifications_emit.
  simpl. repeat split. unfold notifications. simpl. lia.
Qed.

(** *** Discovery *)

Lemma handleDiscoveryPhase_body (env : TickEnv) (w : World) :
  exists wb, quiet w wb
    /\ (handleDiscoveryPhase env w = TypeError wb
        \/ handleDiscoveryPhase env w
           = if Num.ltb 5000 (phaseTimer (simulationState wb))
             then Completed (enterPhase SYNCING wb) else Completed wb).
Proof.
  unfold handleDiscoveryPhase.
  destruct (Num.ltb (Num.rem _ _) 1); [|exists w; split; [apply quiet_refl|now right]].
  destruct (Num.index (nodes w) (Num.floorMul (random env 0) _)) as [s|];
    destruct (Num.index (nodes w) (Num.floorMul (random env 1) _)) as [t|];
    try (exists w; split; [apply quiet_refl|simpl; auto]; fail).
  destruct (Nat.eqb_spec s t) as [->|Hst]; cbn [negb andb andThen];
    [exists w; split; [apply quiet_refl|now right]|].
  destruct (JSSet.has _ _); cbn [negb andb andThen];
    [exists w; split; [apply quiet_refl|now right]|].
  exists (setTimeout (ConnectTimeout s t (500 / speed (simulationState w)))
            (sendPacket s t peer w)).
  split; [|right; reflexivity].
  eapply quiet_trans; [apply quiet_sendPacket|now apply quiet_setTimeout].
Qed.

(** *** Syncing *)

Lemma syncOne_quiet (env : TickEnv) (w : World) (c : nat) (node : ref) :
  quiet w (fst (syncOne env (w, c) node)).
Proof.
  unfold syncOne, showSyncProgress.
  assert (Hq : quiet w (emit (ShowSyncProgress node
                 (Num.rem (phaseTimer (simulationState w)) 2000 / 2000)) w))
    by now apply quiet_emit.
  destruct (_ && _); [|exact Hq].
  destruct (pickRandomConnectedPeer _ _ _) as [t|]; [|exact Hq].
  destruct (bidirectional _ _ _); [|exact Hq].
  eapply quiet_trans; [exact Hq|apply quiet_sendPacket].
Qed.

Lemma syncAll_quiet (env : TickEnv) (l : list ref) (w : World) (c : nat) :
  quiet w (fst (fold_left (syncOne env) l (w, c))).
Proof.
  revert w c. induction l as [|node rest IH]; intros w c; cbn [fold_left].
  - apply quiet_refl.
  - pose proof (syncOne_quiet env w c node) as Hq.
    destruct (syncOne env (w, c) node) as [w1 c1]. simpl in Hq.
    eapply quiet_trans; [exact Hq|apply IH].
Qed.

Lemma handleSyncingPhase_body (env : TickEnv) (w : World) :
  exists wb, quiet w wb
    /\ handleSyncingPhase env w
       = if Num.ltb 8000 (phaseTimer (simulationState wb))
         then Completed (enterPhase PROCESSING wb) else Completed wb.
Proof.
  exists (fst (fold_left (syncOne env) (nodes w) (w, O))).
  split; [apply syncAll_quiet|reflexivity].
Qed.

(** *** Processing *)

Lemma handleProcessingPhase_body (env : TickEnv) (w : World) :
  exists wb, quiet w wb
    /\ (handleProcessingPhase env w = TypeError wb
        \/ handleProcessingPhase env w
           = if Num.ltb 6000 (phaseTimer (simulationState wb))
             then Completed (enterPhase NETWORK_CHANGES wb) else Completed wb).
Proof.
  unfold handleProcessingPhase.
  destruct (Num.ltb (Num.rem _ _) 1); [|exists w; split; [apply quiet_refl|now right]].
  destruct (Num.index (nodes w) _) as [s|];
    [|exists w; split; [apply quiet_refl|now left]].
  destruct (0 <? _)%nat; [|exists w; split; [apply quiet_refl|now right]].
  destruct (pickRandomConnectedPeer _ _ _) as [t|];
    [|exists w; split; [apply quiet_refl|now right]].
  destruct (bidirectional _ _ _); [|exists w; split; [apply quiet_refl|now right]].
  exists (setTimeout (ProcessingTimeout s (1000 / speed (simulationState w)))
            (setProcessing s true (sendPacket s t transaction w))).
  split; [|right; reflexivity].
  eapply quiet_trans; [apply quiet_sendPacket|].
  eapply quiet_trans;
    [apply (quiet_emit (SetProcessing s true)); reflexivity|].
  now apply quiet_setTimeout.
Qed.

(** *** Network changes *)

Lemma removeNode_calm (index : Z) (w : World) :
  (2 < count w)%nat -> calm w (worldOf (removeNode index w)).
Proof.
  intros Hc. unfold removeNode, calm, nodesChange.
  destruct (splice1_removeAt (nodes w) index) as (n & Hn).
  pose proof (removeAt_length_ge n (nodes w)) as Hlen. rewrite <- Hn in Hlen.
  assert (Hd : distinctNodes w ->
               distinctNodes (withNodes (Num.splice1 (nodes w) index) w))
    by (rewrite Hn; apply distinctNodes_removeAt).
  destruct (Num.index (nodes w) index) as [this|]; simpl;
    (split; [reflexivity|]);
    (split; [|split; [auto|split; [right; left; auto|exact Hd]]]).
  - unfold syncNodeCount, shutdown, notifications. simpl.
    rewrite filter_app. simpl. now rewrite app_nil_r.
  - reflexivity.
Qed.

Lemma handleNetworkChanges_body (env : TickEnv) (w : World) :
  exists wb, calm w wb
    /\ (handleNetworkChanges env w = TypeError wb
        \/ handleNetworkChanges env w
           = if Num.ltb 7000 (phaseTimer (simulationState wb))
             then Completed
                    (enterPhase DISCOVERY
                       (if (count wb <? 2)%nat then addSecondNode wb else wb))
             else Completed wb).
Proof.
  unfold handleNetworkChanges.
  destruct (Num.ltb (Num.rem _ _) 20 && (2 <=? _)%nat) eqn:Hguard;
    [|exists w; split; [apply quiet_calm, quiet_refl|now right]].
  apply andb_true_iff in Hguard. destruct Hguard as [_ Hlen].
  apply Nat.leb_le in Hlen.
  destruct (Num.ltb (random env 0) 0.5 && (2 <? _)%nat) eqn:Hcoin.
  - apply andb_true_iff in Hcoin. destruct Hcoin as [_ Hgt].
    apply Nat.ltb_lt in Hgt.
    pose proof (removeNode_calm
                  (Num.floorMul (random env 1) (List.length (nodes w))) w Hgt) as Hcalm.
    destruct (removeNode _ w) as [wb|wb]; simpl in Hcalm; exists wb;
      (split; [exact Hcalm|]); [now right|now left].
  - destruct (Num.ltb (inject_Z _) _) eqn:Hmax;
      [|exists w; split; [apply quiet_calm, quiet_refl|now right]].
    apply ltb_lt in Hmax.
    eexists. split; [|right; reflexivity].
    unfold calm, nodesChange.
    split; [reflexivity|]. split; [|split; [auto|split]].
    + unfold syncNodeCount, pushNewNode, notifications. simpl.
      rewrite filter_app. simpl. now rewrite app_nil_r.
    + right; right. repeat split; auto. eexists. reflexivity.
    + apply distinctNodes_push.
Qed.

(** *** The callback *)

(** A running tick is the handler's body followed by at most one
    transition, taken exactly when the advanced timer is above the
    threshold of the phase. *)
Lemma tick_running (env : TickEnv) (w : World) :
  isRunning (simulationState w) = true ->
  let w1 := advanceTimer env w in
  let p := currentPhase (simulationState w) in
  exists wb, calm w1 wb
    /\ (tick env w = TypeError wb
        \/ (Num.ltb (threshold p) (phaseTimer (simulationState w1)) = false
            /\ tick env w = Completed wb)
        \/ (Num.ltb (threshold p) (phaseTimer (simulationState w1)) = true
            /\ exists wc, tick env w = Completed (enterPhase (nextPhase p) wc)
                 /\ (wc = wb
                     \/ (p = NETWORK_CHANGES /\ (count wb < 2)%nat
                         /\ wc = addSecondNode wb)))).
Proof.
  intros Hrun w1 p. unfold tick. rewrite Hrun. cbn [negb].
  fold w1. change (currentPhase (simulationState w1)) with p.
  destruct p eqn:Hp.
  - destruct (handleDiscoveryPhase_body env w1) as (wb & Hq & H).
    exists wb. split; [now apply quiet_calm|].
    assert (Ht : phaseTimer (simulationState wb) = phaseTimer (simulationState w1))
      by (destruct Hq as (-> & _); reflexivity).
    destruct H as [->| ->]; [now left|right]. rewrite Ht. cbn [threshold].
    destruct (Num.ltb 5000 (phaseTimer (simulationState w1))) eqn:E;
      cbn [andThen]; [right|left; now rewrite Ht, E].
    split; [reflexivity|]. exists wb. split; [|now left]. reflexivity.
  - destruct (handleSyncingPhase_body env w1) as (wb & Hq & H).
    exists wb. split; [now apply quiet_calm|].
    assert (Ht : phaseTimer (simulationState wb) = phaseTimer (simulationState w1))
      by (destruct Hq as (-> & _); reflexivity).
    rewrite H. right. rewrite Ht. cbn [threshold].
    destruct (Num.ltb 8000 (phaseTimer (simulationState w1))) eqn:E;
      cbn [andThen]; [right|left; now rewrite Ht, E].
    split; [reflexivity|]. exists wb. split; [|now left]. reflexivity.
  - destruct (handleProcessingPhase_body env w1) as (wb & Hq & H).
    exists wb. split; [now apply quiet_calm|].
    assert (Ht : phaseTimer (simulationState wb) = phaseTimer (simulationState w1))
      by (destruct Hq as (-> & _); reflexivity).
    destruct H as [->| ->]; [now left|right]. rewrite Ht. cbn [threshold].
    destruct (Num.ltb 6000 (phaseTimer (simulationState w1))) eqn:E;
      cbn [andThen]; [right|left; now rewrite Ht, E].
    split; [reflexivity|]. exists wb. split; [|now left]. reflexivity.
  - destruct (handleNetworkChanges_body env w1) as (wb & Hc & H).
    exists wb. split; [assumption|].
    assert (Ht : phaseTimer (simulationState wb) = phaseTimer (simulationState w1)).
    { destruct Hc as (Hclock & _). unfold clock in Hclock. congruence. }
    destruct H as [->| ->]; [now left|right]. rewrite Ht. cbn [threshold].
    destruct (Num.ltb 7000 (phaseTimer (simulationState w1))) eqn:E;
      cbn [andThen]; [right|left; now rewrite Ht, E].
    split; [reflexivity|].
    destruct (Nat.ltb_spec (count wb) 2).
    + exists (addSecondNode wb). split; [reflexivity|]. right. auto.
    + exists wb. split; [reflexivity|]. now left.
Qed.

Lemma addSecondNode_frame (w : World) :
  clock (simulationState (addSecondNode w)) = clock (simulationState w)
  /\ nodes (addSecondNode w) = nodes w ++ [nextRef w]
  /\ timers (addSecondNode w) = timers w
  /\ notifications (addSecondNode w) = notifications w
  /\ heap (addSecondNode w) (nextRef w)
     = mkBitcoinNode "node-1" JSSet.empty (ringPosition radius Math_PI).
Proof.
  unfold addSecondNode.
  destruct (pushNewNode_frame (ringPosition radius Math_PI) "node-1" w)
    as (A1 & A2 & A3 & A4 & A5 & A6).
  repeat split; assumption.
Qed.

(** What a tick can do to the counters, whatever it is given. *)
Lemma tick_summary (env : TickEnv) (w : World) :
  let w' := worldOf (tick env w) in
  let p := currentPhase (simulationState w) in
  speed (simulationState w') = speed (simulationState w)
  /\ currentStep (simulationState w') = currentStep (simulationState w)
  /\ initialNodeCount (simulationState w') = initialNodeCount (simulationState w)
  /\ isRunning (simulationState w') = isRunning (simulationState w)
  /\ (timersDistinct w -> timersDistinct w')
  /\ (count w' = count w
      \/ ((2 < count w)%nat /\ (Nat.pred (count w) <= count w' <= count w)%nat)
      \/ (count w' = S (count w)
          /\ ((count w < 2)%nat
              \/ ((2 <= count w)%nat /\ inject_Z (Z.of_nat (count w)) < maxNodes w))))
  /\ ((currentPhase (simulationState w') = p
       /\ notifications w' = notifications w)
      \/ (isRunning (simulationState w) = true
          /\ Num.ltb (threshold p) (phaseTimer (simulationState (advanceTimer env w))) = true
          /\ currentPhase (simulationState w') = nextPhase p
          /\ phaseTimer (simulationState w') = 0
          /\ notifications w' = S (notifications w))).
Proof.
  intros w' p. subst w' p.
  destruct (isRunning (simulationState w)) eqn:Hrun.
  2:{ unfold tick. rewrite Hrun. cbn [negb worldOf]. rewrite Hrun. tauto. }
  destruct (tick_running env w Hrun) as (wb & Hcalm & H).
  destruct Hcalm as (Hclock & Hnotif & Htimers & Hnodes & _).
  unfold clock in Hclock. injection Hclock as Hs Hr Hi Hc Hp Hd Ht.
  change (speed (simulationState (advanceTimer env w))) with (speed (simulationState w)) in Hs.
  change (isRunning (simulationState (advanceTimer env w))) with (isRunning (simulationState w)) in Hr.
  change (initialNodeCount (simulationState (advanceTimer env w)))
    with (initialNodeCount (simulationState w)) in Hi.
  change (currentStep (simulationState (advanceTimer env w)))
    with (currentStep (simulationState w)) in Hc.
  change (currentPhase (simulationState (advanceTimer env w)))
    with (currentPhase (simulationState w)) in Hp.
  change (notifications (advanceTimer env w)) with (notifications w) in Hnotif.
  change (timersDistinct (advanceTimer env w)) with (timersDistinct w) in Htimers.
  assert (Hcount : count wb = count w
      \/ ((2 < count w)%nat /\ (Nat.pred (count w) <= count wb <= count w)%nat)
      \/ (count wb = S (count w)
          /\ ((2 <= count w)%nat /\ inject_Z (Z.of_nat (count w)) < maxNodes w))).
  { destruct Hnodes as [E|[E|(E1 & E2 & r & E3)]].
    - left. unfold count. now rewrite E.
    - right; left. exact E.
    - right; right. split; [|split; assumption].
      unfold count. rewrite E3, length_app. simpl.
      change (nodes (advanceTimer env w)) with (nodes w). lia. }
  destruct H as [->|[(Hlt & ->)|(Hlt & wc & -> & Hwc)]]; cbn [worldOf].
  - rewrite Hs, Hc, Hi, Hr, Hp, Hnotif, Hrun.
    repeat split; auto. destruct Hcount as [?|[?|(? & ?)]]; auto.
  - rewrite Hs, Hc, Hi, Hr, Hp, Hnotif, Hrun.
    repeat split; auto. destruct Hcount as [?|[?|(? & ?)]]; auto.
  - destruct (enterPhase_frame (nextPhase (currentPhase (simulationState w))) wc)
      as (F1 & F2 & F3 & F4 & F5 & F6 & F7 & F8 & F9 & F10 & F11).
    assert (Fcount : count (enterPhase (nextPhase (currentPhase (simulationState w))) wc)
                     = count wc) by (unfold count; now rewrite F5).
    assert (Ftimers : timersDistinct wc ->
                      timersDistinct
                        (enterPhase (nextPhase (currentPhase (simulationState w))) wc))
      by (unfold timersDistinct; now rewrite F7).
    rewrite F1, F2, F3, F8, F9, F10, F11, Fcount.
    destruct Hwc as [->|(_ & Hlt2 & ->)].
    + rewrite Hs, Hc, Hi, Hr, Hnotif, Hrun.
      repeat split; auto. destruct Hcount as [?|[?|(? & ?)]]; auto.
      right. auto.
    + destruct (addSecondNode_frame wb) as (G1 & G2 & G3 & G4 & G5).
      assert (Gs : speed (simulationState (addSecondNode wb))
                   = speed (simulationState wb)) by reflexivity.
      assert (Gr : isRunning (simulationState (addSecondNode wb))
                   = isRunning (simulationState wb)) by reflexivity.
      assert (Gi : initialNodeCount (simulationState (addSecondNode wb))
                   = initialNodeCount (simulationState wb)) by reflexivity.
      assert (Gc : currentStep (simulationState (addSecondNode wb))
                   = currentStep (simulationState wb)) by reflexivity.
      assert (Gcount : count (addSecondNode wb) = S (count wb))
        by (unfold count; rewrite G2, length_app; simpl; lia).
      assert (Gtimers : timersDistinct wb -> timersDistinct (addSecondNode wb))
        by (unfold timersDistinct; now rewrite G3).
      rewrite Gs, Gc, Gi, Gr, G4, Gcount, Hs, Hc, Hi, Hr, Hnotif, Hrun.
      repeat split; auto.
      * right; right. split; [|left]; destruct Hcount as [E|[E|(E & E2 & _)]]; lia.
      * right. auto.
Qed.

Lemma tick_distinctNodes (env : TickEnv) (w : World) :
  distinctNodes w -> distinctNodes (worldOf (tick env w)).
Proof.
  intros Hd. destruct (isRunning (simulationState w)) eqn:Hrun.
  2:{ unfold tick. now rewrite Hrun. }
  destruct (tick_running env w Hrun) as (wb & Hcalm & H).
  destruct Hcalm as (_ & _ & _ & _ & Hkeep). specialize (Hkeep Hd).
  destruct H as [->|[(_ & ->)|(_ & wc & -> & [->|(_ & _ & ->)])]];
    try exact Hkeep.
  now apply distinctNodes_push.
Qed.

(** *** A tick on a non-empty array, with valid inputs, returns *)

Lemma randomNode (env : TickEnv) (w : World) (i : nat) :
  validEnv env -> nodes w <> [] ->
  exists x, Num.index (nodes w)
              (Num.floorMul (random env i) (List.length (nodes w))) = Some x
            /\ In x (nodes w).
Proof.
  intros [_ Hr] Hne. destruct (Hr i) as [H0 H1].
  assert (0 < List.length (nodes w))%nat
    by (destruct (nodes w); [congruence|simpl; lia]).
  destruct (index_Some (nodes w) _ (floorMul_range _ _ H0 H1 H)) as (x & E & _ & Hin).
  eauto.
Qed.

Lemma handleDiscoveryPhase_completes (env : TickEnv) (w : World) :
  validEnv env -> nodes w <> [] ->
  exists w', handleDiscoveryPhase env w = Completed w'.
Proof.
  intros Hv Hne. unfold handleDiscoveryPhase.
  destruct (randomNode env w 0 Hv Hne) as (s & -> & _).
  destruct (randomNode env w 1 Hv Hne) as (t & -> & _).
  destruct (Num.ltb (Num.rem _ _) 1); cbn [andThen];
    [destruct (_ && _); cbn [andThen]|];
    destruct (Num.ltb 5000 _); eauto.
Qed.

Lemma handleProcessingPhase_completes (env : TickEnv) (w : World) :
  validEnv env -> nodes w <> [] ->
  exists w', handleProcessingPhase env w = Completed w'.
Proof.
  intros Hv Hne. unfold handleProcessingPhase.
  destruct (randomNode env w 0 Hv Hne) as (s & -> & _).
  destruct (Num.ltb (Num.rem _ _) 1); cbn [andThen];
    [destruct (0 <? _)%nat; cbn [andThen];
     [destruct (pickRandomConnectedPeer _ _ _); cbn [andThen];
      [destruct (bidirectional _ _ _); cbn [andThen]|]|]|];
    destruct (Num.ltb 6000 _); eauto.
Qed.

Lemma handleNetworkChanges_completes (env : TickEnv) (w : World) :
  validEnv env -> nodes w <> [] ->
  exists w', handleNetworkChanges env w = Completed w'.
Proof.
  intros Hv Hne. unfold handleNetworkChanges, removeNode.
  destruct (randomNode env w 1 Hv Hne) as (s & -> & _).
  destruct (_ && (2 <=? _)%nat); cbn [andThen];
    [destruct (_ && (2 <? _)%nat); cbn [andThen];
     [|destruct (Num.ltb (inject_Z _) _); cbn [andThen]]|];
    destruct (Num.ltb 7000 _); eauto.
Qed.

Lemma tick_completes (env : TickEnv) (w : World) :
  validEnv env -> nodes w <> [] -> exists w', tick env w = Completed w'.
Proof.
  intros Hv Hne. unfold tick.
  destruct (negb _); [eauto|].
  assert (Hne' : nodes (advanceTimer env w) <> []) by exact Hne.
  destruct (currentPhase _).
  - destruct (handleDiscoveryPhase_completes env _ Hv Hne') as (w' & ->).
    cbn [andThen]. destruct (Num.ltb _ _); eauto.
  - unfold handleSyncingPhase.
    destruct (Num.ltb 8000 _); cbn [andThen]; destruct (Num.ltb _ _); eauto.
  - destruct (handleProcessingPhase_completes env _ Hv Hne') as (w' & ->).
    cbn [andThen]. destruct (Num.ltb _ _); eauto.
  - destruct (handleNetworkChanges_completes env _ Hv Hne') as (w' & ->).
    cbn [andThen]. destruct (Num.ltb _ _); eauto.
Qed.

(** *** Events *)

Lemma fireTimeout_frame (k : nat) (w : World) :
  simulationState (fireTimeout k w) = simulationState w
  /\ nodes (fireTimeout k w) = nodes w
  /\ notifications (fireTimeout k w) = notifications w
  /\ (timersDistinct w -> timersDistinct (fireTimeout k w))
  /\ nextRef (fireTimeout k w) = nextRef w.
Proof.
  unfold fireTimeout.
  destruct (nth_error (timers w) k) as [t|]; [|repeat split; auto].
  assert (Hsub : timersDistinct w ->
                 timersDistinct (withTimers (Num.removeAt k (timers w)) w)).
  { unfold timersDistinct. simpl. intros H a b d Hin.
    apply removeAt_In in Hin. eauto. }
  destruct t as [a b d|a d]; simpl.
  - destruct (connectTo_frame a b (withTimers (Num.removeAt k (timers w)) w))
      as (A1 & A2 & A3 & A4 & A5).
    rewrite A1, A2, A4, A5. repeat split.
    intros H. apply Hsub in H. unfold timersDistinct in *. now rewrite A3.
  - unfold setProcessing, notifications. simpl.
    rewrite filter_app. simpl. rewrite app_nil_r. repeat split. exact Hsub.
Qed.

(** What any event leaves alone, and the only ways it moves the counters. *)
Lemma step_summary (w w' : World) :
  step w w' ->
  speed (simulationState w') = speed (simulationState w)
  /\ currentStep (simulationState w') = currentStep (simulationState w)
  /\ initialNodeCount (simulationState w') = initialNodeCount (simulationState w)
  /\ (timersDistinct w -> timersDistinct w')
  /\ (count w' = count w
      \/ ((2 < count w)%nat /\ (Nat.pred (count w) <= count w' <= count w)%nat)
      \/ (count w' = S (count w)
          /\ ((count w < 2)%nat
              \/ ((2 <= count w)%nat /\ inject_Z (Z.of_nat (count w)) < maxNodes w))))
  /\ ((currentPhase (simulationState w') = currentPhase (simulationState w)
       /\ notifications w' = notifications w)
      \/ (currentPhase (simulationState w') = nextPhase (currentPhase (simulationState w))
          /\ phaseTimer (simulationState w') = 0
          /\ notifications w' = S (notifications w))).
Proof.
  intros Hstep. destruct Hstep as [env w Hv|w|w|k w].
  - destruct (tick_summary env w) as (A1 & A2 & A3 & A4 & A5 & A6 & A7).
    repeat split; auto. destruct A7 as [?|(_ & _ & ?)]; auto.
  - unfold playPause. simpl. repeat split; auto.
  - unfold toggleTheme. simpl. repeat split; auto.
  - destruct (fireTimeout_frame k w) as (A1 & A2 & A3 & A4 & _).
    unfold count. rewrite A1, A2, A3. repeat split; auto.
Qed.

Lemma step_distinctNodes (w w' : World) :
  step w w' -> distinctNodes w -> distinctNodes w'.
Proof.
  intros Hstep Hd. destruct Hstep as [env w Hv|w|w|k w];
    [now apply tick_distinctNodes|exact Hd|exact Hd|].
  destruct (fireTimeout_frame k w) as (_ & A2 & _ & _ & A5).
  unfold distinctNodes. now rewrite A2, A5.
Qed.

(** *** Reachable worlds *)

Lemma maxNodes_initial (w : World) :
  initialNodeCount (simulationState w) = 1 -> maxNodes w = 20.
Proof. unfold maxNodes. now intros ->. Qed.

Lemma below_twenty (n : nat) : inject_Z (Z.of_nat n) < 20 -> (n < 20)%nat.
Proof.
  change 20 with (inject_Z 20). rewrite <- Zlt_Qlt. lia.
Qed.

Lemma reachable_bounds (w : World) :
  reachable w ->
  initialNodeCount (simulationState w) = 1
  /\ speed (simulationState w) = 1
  /\ currentStep (simulationState w) = 0
  /\ (1 <= count w <= 20)%nat
  /\ timersDistinct w.
Proof.
  unfold reachable. remember initialWorld as w0 eqn:E0.
  induction 1 as [|w1 w2 w3 _ IH Hstep]; subst.
  - unfold count. simpl. repeat split; try lia. intros a b d [].
  - destruct (IH eq_refl) as (Hi & Hs & Hc & Hn & Ht).
    destruct (step_summary w2 w3 Hstep) as (A1 & A2 & A3 & A4 & A5 & _).
    rewrite A1, A2, A3. repeat split; auto.
    + destruct A5 as [E|[E|(E & _)]]; lia.
    + rewrite (maxNodes_initial w2 Hi) in A5.
      destruct A5 as [E|[E|(E & [E2|(_ & E2)])]]; try lia.
      apply below_twenty in E2. lia.
Qed.

(** In every reachable world the array holds each node object once. *)
Lemma reachable_distinctNodes (w : World) :
  reachable w -> distinctNodes w.
Proof.
  unfold reachable. remember initialWorld as w0 eqn:E0.
  induction 1 as [|w1 w2 w3 _ IH Hstep]; subst.
  - split; simpl; [repeat constructor; intros []|].
    intros r [<-|[]]. lia.
  - eapply step_distinctNodes; eauto.
Qed.

Lemma steps_floor (w w' : World) :
  steps w w' -> (2 <= count w)%nat -> (2 <= count w')%nat.
Proof.
  induction 1 as [|w1 w2 w3 _ IH Hstep]; [auto|]. intros H.
  specialize (IH H).
  destruct (step_summary w2 w3 Hstep) as (_ & _ & _ & _ & A5 & _).
  destruct A5 as [E|[E|(E & _)]]; lia.
Qed.

(** C2. In every reachable world the number of nodes is at most
    [max(20, initialNodeCount * 1.5)]; once it is at least 2 it stays at
    least 2 through all later events; and a tick lowers it only from above
    2 (the removal guard [nodes.length > 2]) and raises it, by one, only
    below [maxNodes] or, for the forced add, below 2. *)
Theorem node_count_bounds (w : World) :
  reachable w ->
  inject_Z (Z.of_nat (count w)) <= maxNodes w
  /\ (forall w', (2 <= count w)%nat -> steps w w' -> (2 <= count w')%nat)
  /\ (forall env,
        let w' := worldOf (tick env w) in
        ((count w' < count w)%nat -> (2 < count w)%nat)
        /\ ((count w < count w')%nat ->
            count w' = S (count w)
            /\ ((count w < 2)%nat
                \/ ((2 <= count w)%nat
                    /\ inject_Z (Z.of_nat (count w)) < maxNodes w)))).
Proof.
  intros Hr. destruct (reachable_bounds w Hr) as (Hi & _ & _ & Hn & _).
  split; [|split].
  - rewrite (maxNodes_initial w Hi). change 20 with (inject_Z 20).
    rewrite <- Zle_Qle. lia.
  - intros w' H2 Hsteps. eapply steps_floor; eauto.
  - intros env w'. subst w'.
    destruct (tick_summary env w) as (_ & _ & _ & _ & _ & A6 & _).
    split; intros H; destruct A6 as [E|[E|(E & E2)]]; try lia; auto.
Qed.

(** C3. The phase only moves along Discovery, Syncing, Processing,
    NetworkChanges, Discovery; whenever an event changes it the timer is 0
    afterwards and [updateInstructions] has been called once.  A running
    tick (on an array with at least one node, with random values in
    [[0, 1)]) returns, and leaves its phase exactly when the advanced timer
    is above the phase's threshold (5000, 8000, 6000, 7000); the call to
    [updateInstructions] for the new phase is then the last thing it does.
    A tick that is not running changes nothing. *)
Theorem phase_cycle :
  (forall w w', step w w' ->
     (currentPhase (simulationState w') = currentPhase (simulationState w)
      /\ notifications w' = notifications w)
     \/ (currentPhase (simulationState w') = nextPhase (currentPhase (simulationState w))
         /\ phaseTimer (simulationState w') = 0
         /\ notifications w' = S (notifications w)))
  /\ (forall env w,
        validEnv env -> nodes w <> [] -> isRunning (simulationState w) = true ->
        let p := currentPhase (simulationState w) in
        let t := phaseTimer (simulationState w)
                 + deltaTime env * speed (simulationState w) in
        exists w', tick env w = Completed w'
          /\ (threshold p < t ->
              currentPhase (simulationState w') = nextPhase p
              /\ phaseTimer (simulationState w') = 0
              /\ notifications w' = S (notifications w)
              /\ exists l, effects w' = l ++ [UpdateInstructions (nextPhase p)])
          /\ (~ threshold p < t ->
              currentPhase (simulationState w') = p
              /\ phaseTimer (simulationState w') = t
              /\ notifications w' = notifications w))
  /\ (forall env w,
        isRunning (simulationState w) = false -> tick env w = Completed w).
Proof.
  split; [|split].
  - intros w w' Hstep. apply step_summary in Hstep. tauto.
  - intros env w Hv Hne Hrun p t.
    destruct (tick_completes env w Hv Hne) as (w' & Hw'). exists w'.
    split; [assumption|].
    destruct (tick_running env w Hrun) as (wb & Hcalm & H).
    fold p in H. change (phaseTimer (simulationState (advanceTimer env w))) with t in H.
    destruct Hcalm as (Hclock & Hnotif & _).
    unfold clock in Hclock. injection Hclock as _ _ _ _ Hp _ Ht.
    change (currentPhase (simulationState (advanceTimer env w))) with p in Hp.
    change (phaseTimer (simulationState (advanceTimer env w))) with t in Ht.
    change (notifications (advanceTimer env w)) with (notifications w) in Hnotif.
    rewrite Hw' in H.
    destruct H as [H|[(Hlt & H)|(Hlt & wc & H & Hwc)]]; [discriminate| |].
    + injection H as ->. apply ltb_ge in Hlt. split.
      * intros Habove. exfalso. eapply Qlt_not_le; eauto.
      * auto.
    + injection H as ->. apply ltb_lt in Hlt. split; [|intros Hn; contradiction].
      intros _.
      destruct (enterPhase_frame (nextPhase p) wc)
        as (F1 & F2 & F3 & F4 & _).
      rewrite F1, F2, F3, F4. repeat split; eauto.
      f_equal. destruct Hwc as [->|(_ & _ & ->)]; [assumption|].
      destruct (addSecondNode_frame wb) as (_ & _ & _ & G4 & _). congruence.
  - intros env w Hrun. unfold tick. now rewrite Hrun.
Qed.

(** C4. While [isRunning] is false, any number of ticks, whatever their
    frame times, returns the world it was given: timer, phase, nodes,
    timers and renderer calls are all as before. *)
Theorem paused_ticks_change_nothing (envs : list TickEnv) (w : World) :
  isRunning (simulationState w) = false -> ticks envs w = Completed w.
Proof.
  intros Hrun. induction envs as [|env rest IH]; simpl; [reflexivity|].
  unfold tick. rewrite Hrun. simpl. exact IH.
Qed.

(** C5. The first tick after start-up, with a frame time of 200 ms: the
    timer goes from 6900 to 7100, above 7000; the handler adds the node
    ["node-1"] at angle pi on the ring, with no connections; the phase
    becomes Discovery with the timer at 0; two nodes exist.  Where
    [Math.cos(Math.PI)] is -1 and [Math.sin(Math.PI)] is 0 the new node is
    opposite ["node-0"]. *)
Theorem startup_tick (rnd : nat -> Q) (nw : Z) :
  let env := mkTickEnv 200 rnd nw in
  count initialWorld = 1%nat
  /\ currentPhase (simulationState initialWorld) = NETWORK_CHANGES
  /\ phaseTimer (simulationState initialWorld) = 6900
  /\ speed (simulationState initialWorld) = 1
  /\ isRunning (simulationState initialWorld) = true
  /\ phaseTimer (simulationState (advanceTimer env initialWorld)) = 7100
  /\ 7000 < 7100
  /\ exists w',
       tick env initialWorld = Completed w'
       /\ currentPhase (simulationState w') = DISCOVERY
       /\ phaseTimer (simulationState w') = 0
       /\ nodes w' = [0%nat; 1%nat]
       /\ nodeCount (simulationState w') = 2%nat
       /\ heap w' 0%nat = mkBitcoinNode "node-0" JSSet.empty (mkVector3 radius 0 0)
       /\ heap w' 1%nat
          = mkBitcoinNode "node-1" JSSet.empty (ringPosition radius Math_PI)
       /\ (Math_cos Math_PI == -1 -> Math_sin Math_PI == 0 ->
           vx (position (heap w' 1%nat)) == - vx (position (heap w' 0%nat))
           /\ vy (position (heap w' 1%nat)) == - vy (position (heap w' 0%nat))
           /\ vz (position (heap w' 1%nat)) == - vz (position (heap w' 0%nat))).
Proof.
  intros env. repeat (split; [reflexivity|]).
  eexists. split; [reflexivity|]. repeat (split; [reflexivity|]).
  intros Hcos Hsin. simpl. rewrite Hcos, Hsin. repeat split; reflexivity.
Qed.

Lemma rem_zero_lt_one (b : Q) : Num.ltb (Num.rem 0 b) 1 = true.
Proof.
  apply ltb_lt. unfold Num.rem, Num.trunc.
  assert (E : Qnum (0 / b) = 0%Z) by (destruct b as [[|n|n] d]; reflexivity).
  rewrite E, Z.quot_0_l by discriminate.
  unfold Qlt. simpl. rewrite Z.mul_0_r. simpl. lia.
Qed.

(** C10. [currentStep] starts at 0 and no event changes it.  For every
    positive speed the guards [currentStep % (3 / speed) < 1] and
    [currentStep % (5 / speed) < 1] therefore hold with [currentStep = 0],
    and in every reachable world both guards, as the Discovery and
    Processing handlers evaluate them, are true. *)
Theorem currentStep_is_constant :
  currentStep (simulationState initialWorld) = 0
  /\ (forall w w', step w w' ->
        currentStep (simulationState w') = currentStep (simulationState w))
  /\ (forall w, reachable w -> currentStep (simulationState w) = 0)
  /\ (forall sp, 0 < sp ->
        Num.ltb (Num.rem 0 (3 / sp)) 1 = true
        /\ Num.ltb (Num.rem 0 (5 / sp)) 1 = true)
  /\ (forall w, reachable w ->
        Num.ltb (Num.rem (currentStep (simulationState w))
                   (3 / speed (simulationState w))) 1 = true
        /\ Num.ltb (Num.rem (currentStep (simulationState w))
                      (5 / speed (simulationState w))) 1 = true).
Proof.
  split; [reflexivity|]. split; [|split; [|split]].
  - intros w w' Hstep. apply step_summary in Hstep. tauto.
  - intros w Hr. apply reachable_bounds in Hr. tauto.
  - intros sp _. split; apply rem_zero_lt_one.
  - intros w Hr. apply reachable_bounds in Hr.
    destruct Hr as (_ & _ & -> & _). split; apply rem_zero_lt_one.
Qed.

(** What the add branch produces: one more node at the end of the array,
    named after the clock, with no connections. *)
Lemma addNode_spec (env : TickEnv) (w : World) :
  nodes (addNode env w) = nodes w ++ [nextRef w]
  /\ heap (addNode env w) (nextRef w)
     = mkBitcoinNode (String.append "node-" (Num.toString (now env)))
         JSSet.empty (choosePosition env w)
  /\ nextRef (addNode env w) = S (nextRef w)
  /\ (forall x, x <> nextRef w -> heap (addNode env w) x = heap w x).
Proof.
  unfold addNode, syncNodeCount, pushNewNode, store. simpl.
  rewrite Nat.eqb_refl. repeat split.
  intros x Hx. destruct (Nat.eqb_spec x (nextRef w)); [contradiction|reflexivity].
Qed.

(** *** The placement search *)

Lemma placementLoop_spec (env : TickEnv) (w : World) (n c : nat) :
  let p := placementLoop env w n c in
  (c < cursor p)%nat
  /\ ((n < 10)%nat -> (cursor p - c <= 10 - n)%nat)
  /\ (n <= attempts p)%nat
  /\ ((n < 10)%nat -> (attempts p <= 10)%nat)
  /\ angle p = random env (cursor p - 1) * Math_PI * 2
  /\ candidate p = ringPosition radius (angle p)
  /\ ((n < 10)%nat -> (attempts p < 10)%nat ->
      isTooClose w (candidate p) (radius * 0.8) = false)
  /\ ((n < 10)%nat -> attempts p = 10%nat -> (cursor p - c = 10 - n)%nat)
  /\ ((forall i, isTooClose w (ringPosition radius (random env i * Math_PI * 2))
                   (radius * 0.8) = true) ->
      (n < 10)%nat -> attempts p = 10%nat).
Proof.
  funelim (placementLoop env w n c).
  - cbn [cursor attempts angle candidate]. rewrite Nat.sub_succ, Nat.sub_0_r.
    repeat split; intros; try lia; try assumption.
    match goal with H : forall i, _ = true |- _ => rewrite H in Heq end.
    discriminate.
  - match goal with
    | IH : _ /\ _ |- _ =>
        destruct IH as (I1 & I2 & I3 & I4 & I5 & I6 & I7 & I8 & I9)
    end.
    specialize (I2 l). specialize (I4 l). specialize (I7 l).
    specialize (I8 l).
    repeat split; intros; auto; lia.
  - cbn [cursor attempts angle candidate]. rewrite Nat.sub_succ, Nat.sub_0_r.
    repeat split; intros; try lia.
Qed.

(** C8. The placement search ends for every array of nodes: the loop body
    runs between one and ten times (one [Math.random()] per run) and
    rejects at most ten candidates.  Below ten rejections the position is
    the last candidate, on the ring and not within [0.8 * radius] of any
    node.  At ten rejections the loop has run exactly ten times and the
    position lies at the last angle on a ring whose radius is between 1.0
    and 1.4 times [radius], with no distance check; this is what happens
    when every candidate drawn is too close.  Either way the add branch
    appends a node at the position found. *)
Theorem placement_terminates (env : TickEnv) (w : World) :
  let p := placementLoop env w 0 1 in
  (1 <= cursor p - 1 <= 10)%nat
  /\ (attempts p <= 10)%nat
  /\ ((attempts p < 10)%nat ->
      choosePosition env w = candidate p
      /\ candidate p = ringPosition radius (angle p)
      /\ isTooClose w (candidate p) (radius * 0.8) = false)
  /\ (attempts p = 10%nat ->
      (cursor p - 1 = 10)%nat
      /\ (0 <= random env (cursor p) /\ random env (cursor p) < 1 ->
          exists alternateRadius,
            choosePosition env w = ringPosition alternateRadius (angle p)
            /\ radius * 1 <= alternateRadius
            /\ alternateRadius <= radius * 1.4))
  /\ ((forall i, isTooClose w (ringPosition radius (random env i * Math_PI * 2))
                   (radius * 0.8) = true) ->
      attempts p = 10%nat)
  /\ nodes (addNode env w) = nodes w ++ [nextRef w]
  /\ position (heap (addNode env w) (nextRef w)) = choosePosition env w.
Proof.
  intros p.
  destruct (placementLoop_spec env w 0 1)
    as (I1 & I2 & I3 & I4 & I5 & I6 & I7 & I8 & I9).
  fold p in I1, I2, I3, I4, I5, I6, I7, I8, I9.
  assert (H10 : (0 < 10)%nat) by lia.
  specialize (I2 H10). specialize (I4 H10). specialize (I7 H10).
  specialize (I8 H10).
  split; [lia|]. split; [assumption|]. split; [|split; [|split]].
  - intros Hlt. unfold choosePosition. fold p.
    destruct (Nat.leb_spec 10 (attempts p)); [lia|]. auto.
  - intros Heq. split; [specialize (I8 Heq); lia|].
    intros [Hr0 Hr1]. unfold choosePosition. fold p. rewrite Heq. cbn [Nat.leb].
    eexists. split; [reflexivity|]. unfold radius. split.
    + apply Qmult_le_l; [reflexivity|].
      setoid_replace 1 with (1 + 0 * 0.4) at 1 by ring.
      apply Qplus_le_r. apply Qmult_le_compat_r; [assumption|discriminate].
    + apply Qmult_le_l; [reflexivity|].
      setoid_replace 1.4 with (1 + 1 * 0.4) by ring.
      apply Qplus_le_r. apply Qmult_le_compat_r; [|discriminate].
      now apply Qlt_le_weak.
  - intros Hall. apply I9; assumption.
  - destruct (addNode_spec env w) as (A1 & A2 & _). rewrite A2. auto.
Qed.

(** *** The network model *)


(** C6 as amended. [a.connectTo(b)] returns at once when [a] already lists
    [b], so a second call changes nothing; otherwise it adds [b]'s
    identifier to [a]'s set and [a]'s to [b]'s and touches no other set,
    also when [a] and [b] are one node, which then lists itself.  The
    Discovery handler never schedules that case: every pending connection
    closure of a reachable world joins two different nodes. *)
Theorem connectTo_amended :
  (forall a b w, lists w a b = true -> connectTo a b w = w)
  /\ (forall a b w, connectTo a b (connectTo a b w) = connectTo a b w)
  /\ (forall a b w, lists w a b = false ->
        connections (heap (connectTo a b w) a)
        = JSSet.add (nodeId (heap w b)) (connections (heap w a))
        /\ connections (heap (connectTo a b w) b)
           = JSSet.add (nodeId (heap w a)) (connections (heap w b))
        /\ (forall x, x <> a -> x <> b ->
                      connections (heap (connectTo a b w) x) = connections (heap w x))
        /\ lists (connectTo a b w) a b = true
        /\ lists (connectTo a b w) b a = true)
  /\ (forall w, reachable w ->
        forall s t d, In (ConnectTimeout s t d) (timers w) -> s <> t).
Proof.
  split; [|split; [|split]].
  - apply connectTo_noop.
  - apply connectTo_idempotent.
  - intros a b w H. destruct (connections_connectTo a b w H) as (A1 & A2 & A3).
    destruct (connectTo_adds_both a b w) as (B1 & B2).
    repeat split; auto.
  - intros w Hr. apply reachable_bounds in Hr. destruct Hr as (_ & _ & _ & _ & Ht).
    exact Ht.
Qed.

(** C7. Removing the node at a valid index of an array of distinct nodes
    takes it out of the array and leaves no remaining node listing its
    identifier; the peer selection of the syncing and processing handlers,
    run on any remaining node with any random value, never yields the
    removed node nor a node with its identifier. *)
Theorem removeNode_purges (index : Z) (w : World) :
  NoDup (nodes w) -> (0 <= index < Z.of_nat (count w))%Z ->
  exists this w',
    Num.index (nodes w) index = Some this
    /\ removeNode index w = Completed w'
    /\ nodes w' = Num.removeAt (Z.to_nat index) (nodes w)
    /\ ~ In this (nodes w')
    /\ count w' = Nat.pred (count w)
    /\ nodeId (heap w' this) = nodeId (heap w this)
    /\ (forall x, In x (nodes w') -> lists w' x this = false)
    /\ (forall x r t, In x (nodes w') ->
          pickRandomConnectedPeer w' x r = Some t ->
          t <> this /\ nodeId (heap w' t) <> nodeId (heap w' this)).
Proof.
  intros Hnd Hi.
  destruct (removeNode_in_range index w Hi) as (this & w' & E & Hrm & Hn).
  exists this, w'.
  destruct (removeNode_gone index w this Hnd E) as (Hsp & Hgone).
  rewrite Hsp, <- Hn in Hgone.
  assert (Hid : nodeId (heap w' this) = nodeId (heap w this)).
  { apply removeNode_Completed in Hrm. destruct Hrm as (? & _ & _ & ->).
    simpl. apply shutdown_fold. }
  assert (Hl : forall x, In x (nodes w') -> lists w' x this = false).
  { intros x Hx. rewrite (removeNode_lists index w w' this) by assumption.
    rewrite String.eqb_refl. apply andb_false_r. }
  assert (Hcount : count w' = Nat.pred (count w)).
  { unfold count in *. rewrite Hn. apply removeAt_length. lia. }
  do 7 (split; [assumption|]).
  intros x r t Hx Hpick. apply pick_lists in Hpick. destruct Hpick as [Ht Hxt].
  split.
  - intros ->. contradiction.
  - intros Heq. specialize (Hl x Hx). unfold lists in *.
    rewrite Heq in Hxt. congruence.
Qed.

(** *** Joining nodes *)

(** Two joins that read the same [Date.now()] give the same identifier. *)
Lemma addNode_same_clock (env env' : TickEnv) (w : World) :
  now env' = now env ->
  nodeId (heap (addNode env' (addNode env w)) (nextRef w))
  = nodeId (heap (addNode env' (addNode env w)) (S (nextRef w))).
Proof.
  intros Hnow.
  destruct (addNode_spec env w) as (_ & A2 & A3 & _).
  destruct (addNode_spec env' (addNode env w)) as (_ & B2 & _ & B4).
  rewrite A3 in B2. rewrite B2, B4, A2 by (rewrite A3; lia).
  simpl. now rewrite Hnow.
Qed.

Lemma ticks_reachable (envs : list TickEnv) (w w' : World) :
  Forall validEnv envs -> reachable w -> ticks envs w = Completed w' ->
  reachable w'.
Proof.
  unfold reachable. intros Hv. revert w.
  induction Hv as [|env rest Henv _ IH]; intros w Hr H; simpl in H.
  - now injection H as <-.
  - destruct (tick env w) as [w1|w1] eqn:E; [|discriminate].
    apply (IH w1); [|assumption].
    eapply steps_snoc; [exact Hr|].
    replace w1 with (worldOf (tick env w)) by now rewrite E.
    now constructor.
Qed.

(** ** The shape of a tick *)

Lemma check_twice (T : Q) (P : Phase) (f : World -> World) (wb : World) :
  Num.ltb T 0 = false ->
  andThen
    (if Num.ltb T (phaseTimer (simulationState wb))
     then Completed (enterPhase P (f wb)) else Completed wb)
    (fun w2 =>
       if Num.ltb T (phaseTimer (simulationState w2))
       then Completed (enterPhase P (f w2)) else Completed w2)
  = Completed
      (if Num.ltb T (phaseTimer (simulationState wb))
       then enterPhase P (f wb) else wb).
Proof.
  intros H0. destruct (Num.ltb T (phaseTimer (simulationState wb))) eqn:E;
    cbn [andThen].
  - change (phaseTimer (simulationState (enterPhase P (f wb)))) with 0.
    now rewrite H0.
  - now rewrite E.
Qed.

Lemma simulationState_sendPacket (a b : ref) (ty : PacketType) (w : World) :
  simulationState (sendPacket a b ty w) = simulationState w
  /\ nodes (sendPacket a b ty w) = nodes w
  /\ heap (sendPacket a b ty w) = heap w
  /\ timers (sendPacket a b ty w) = timers w
  /\ nextRef (sendPacket a b ty w) = nextRef w.
Proof. unfold sendPacket. destruct (_ && _); repeat split. Qed.

(** A running tick is one of the handler bodies followed by [finish];
    the second threshold check of the callback never fires. *)
Lemma tick_shape (env : TickEnv) (w : World) :
  isRunning (simulationState w) = true ->
  exists o,
    body env (advanceTimer env w) o
    /\ tick env w
       = andThen o
           (fun wb => Completed (finish (currentPhase (simulationState w)) wb)).
Proof.
  intros Hrun. unfold tick. rewrite Hrun. cbn [negb].
  set (w1 := advanceTimer env w).
  change (currentPhase (simulationState w)) with (currentPhase (simulationState w1)).
  destruct (currentPhase (simulationState w1)) eqn:Hp.
  - unfold handleDiscoveryPhase. fold (count w1).
    destruct (Num.ltb (Num.rem _ _) 1).
    2:{ exists (Completed w1). split; [constructor|].
        cbn [andThen]. now apply (check_twice 5000 SYNCING (fun x => x)). }
    destruct (Num.index (nodes w1) (Num.floorMul (random env 0) (count w1)))
      as [s|] eqn:Es;
      destruct (Num.index (nodes w1) (Num.floorMul (random env 1) (count w1)))
        as [t|] eqn:Et;
      try (exists (TypeError w1); split; [constructor|reflexivity]).
    2:{ exists (Completed w1). split; [constructor|].
        cbn [andThen]. now apply (check_twice 5000 SYNCING (fun x => x)). }
    destruct (Nat.eqb_spec s t) as [->|Hst]; cbn [negb andb].
    { exists (Completed w1). split; [constructor|].
      cbn [andThen]. now apply (check_twice 5000 SYNCING (fun x => x)). }
    fold (lists w1 s t). destruct (lists w1 s t) eqn:Hl; cbn [negb].
    { exists (Completed w1). split; [constructor|].
      cbn [andThen]. now apply (check_twice 5000 SYNCING (fun x => x)). }
    eexists. split; [now apply (body_discover env w1 s t)|].
    cbn [andThen]. now apply (check_twice 5000 SYNCING (fun x => x)).
  - exists (Completed (fst (fold_left (syncOne env) (nodes w1) (w1, O)))).
    split; [now constructor|].
    unfold handleSyncingPhase. cbn [andThen].
    now apply (check_twice 8000 PROCESSING (fun x => x)).
  - unfold handleProcessingPhase. fold (count w1).
    destruct (Num.ltb (Num.rem _ _) 1).
    2:{ exists (Completed w1). split; [constructor|].
        cbn [andThen]. now apply (check_twice 6000 NETWORK_CHANGES (fun x => x)). }
    destruct (Num.index (nodes w1) (Num.floorMul (random env 0) (count w1)))
      as [s|] eqn:Es;
      [|exists (TypeError w1); split; [constructor|reflexivity]].
    destruct (0 <? _)%nat.
    2:{ exists (Completed w1). split; [constructor|].
        cbn [andThen]. now apply (check_twice 6000 NETWORK_CHANGES (fun x => x)). }
    destruct (pickRandomConnectedPeer w1 s (random env 1)) as [t|] eqn:Et.
    2:{ exists (Completed w1). split; [constructor|].
        cbn [andThen]. now apply (check_twice 6000 NETWORK_CHANGES (fun x => x)). }
    destruct (bidirectional w1 s t) eqn:Hb.
    2:{ exists (Completed w1). split; [constructor|].
        cbn [andThen]. now apply (check_twice 6000 NETWORK_CHANGES (fun x => x)). }
    eexists. split; [now apply (body_process env w1 s t)|].
    cbn [andThen]. now apply (check_twice 6000 NETWORK_CHANGES (fun x => x)).
  - unfold handleNetworkChanges. fold (count w1).
    set (fix2 := fun x => if (count x <? 2)%nat then addSecondNode x else x).
    destruct (Num.ltb (Num.rem _ _) 20 && (2 <=? count w1)%nat) eqn:Hguard.
    2:{ exists (Completed w1). split; [constructor|].
        cbn [andThen]. now apply (check_twice 7000 DISCOVERY fix2). }
    apply andb_true_iff in Hguard. destruct Hguard as [_ Hlen].
    apply Nat.leb_le in Hlen.
    destruct (Num.ltb (random env 0) 0.5 && (2 <? count w1)%nat) eqn:Hcoin.
    + apply andb_true_iff in Hcoin. destruct Hcoin as [_ Hgt].
      apply Nat.ltb_lt in Hgt.
      exists (removeNode (Num.floorMul (random env 1) (count w1)) w1).
      split; [now constructor|].
      destruct (removeNode _ w1) as [wb|wb]; cbn [andThen]; [|reflexivity].
      now apply (check_twice 7000 DISCOVERY fix2).
    + destruct (Num.ltb (inject_Z _) _) eqn:Hmax.
      2:{ exists (Completed w1). split; [constructor|].
          cbn [andThen]. now apply (check_twice 7000 DISCOVERY fix2). }
      apply ltb_lt in Hmax.
      exists (Completed (addNode env w1)). split; [now constructor|].
      cbn [andThen]. now apply (check_twice 7000 DISCOVERY fix2).
Qed.

(** ** What a tick tells the renderer *)

Lemma sendPacket_log (a b : ref) (ty : PacketType) (w : World) :
  ty = peer \/ lists w a b = true ->
  effects (sendPacket a b ty w) = effects w ++ [SendPacket a b ty].
Proof.
  unfold sendPacket, lists. intros [->|Hl]; [reflexivity|].
  rewrite Hl. destruct ty; reflexivity.
Qed.

Lemma logged_quiet (w0 w : World) (e : Effect) :
  quiet w0 w -> logged w e -> logged w0 e.
Proof.
  intros (A1 & A2 & A3 & A4 & _). unfold logged, lists, bidirectional, count.
  now rewrite A1, A2, A3, A4.
Qed.

Lemma syncOne_log (env : TickEnv) (w : World) (c : nat) (node : ref) :
  currentPhase (simulationState w) = SYNCING -> In node (nodes w) ->
  exists l,
    effects (fst (syncOne env (w, c) node)) = effects w ++ l
    /\ Forall (logged w) l
    /\ filter isProgress l
       = [ShowSyncProgress node
            (Num.rem (phaseTimer (simulationState w)) 2000 / 2000)].
Proof.
  intros Hp Hin. unfold syncOne, showSyncProgress.
  set (q := Num.rem (phaseTimer (simulationState w)) 2000 / 2000).
  set (w1 := emit (ShowSyncProgress node q) w).
  assert (Hq : logged w (ShowSyncProgress node q)) by (repeat split; assumption).
  assert (H1 : exists l, effects w1 = effects w ++ l /\ Forall (logged w) l
                         /\ filter isProgress l = [ShowSyncProgress node q]).
  { exists [ShowSyncProgress node q]. repeat split. now constructor. }
  destruct (_ && _); [|exact H1].
  destruct (pickRandomConnectedPeer w1 node _) as [t|] eqn:Et; [|exact H1].
  destruct (bidirectional w1 node t) eqn:Hb; [|exact H1].
  exists [ShowSyncProgress node q; SendPacket node t block].
  apply pick_lists in Et. destruct Et as [Ht _]. cbn [fst].
  rewrite sendPacket_log.
  - split; [subst w1; unfold emit; simpl; now rewrite <- app_assoc|].
    split; [|reflexivity]. repeat constructor; assumption.
  - right. unfold bidirectional in Hb. apply andb_true_iff in Hb. apply Hb.
Qed.

Lemma syncAll_log (env : TickEnv) (w0 : World) (l0 : list ref) (w : World) (c : nat) :
  currentPhase (simulationState w0) = SYNCING -> quiet w0 w ->
  (forall n, In n l0 -> In n (nodes w0)) ->
  exists l,
    effects (fst (fold_left (syncOne env) l0 (w, c))) = effects w ++ l
    /\ Forall (logged w0) l
    /\ filter isProgress l
       = map (fun n => ShowSyncProgress n
                         (Num.rem (phaseTimer (simulationState w0)) 2000 / 2000)) l0.
Proof.
  intros Hp. revert w c. induction l0 as [|node rest IH]; intros w c Hq Hin;
    cbn [fold_left].
  - exists []. rewrite app_nil_r. repeat split. constructor.
  - pose proof Hq as (A1 & A2 & _).
    destruct (syncOne_log env w c node) as (l1 & E1 & F1 & P1).
    { now rewrite A1. }
    { rewrite A2. apply Hin. now left. }
    pose proof (syncOne_quiet env w c node) as Hq1.
    destruct (syncOne env (w, c) node) as [w1 c1]. cbn [fst] in *.
    destruct (IH w1 c1) as (l2 & E2 & F2 & P2).
    { eapply quiet_trans; eauto. }
    { intros n Hn. apply Hin. now right. }
    exists (l1 ++ l2). rewrite E2, E1, <- app_assoc. split; [reflexivity|].
    split.
    + apply Forall_app. split; [|assumption].
      eapply Forall_impl; [|exact F1]. intros e. now apply logged_quiet.
    + rewrite filter_app, P1, P2, A1. reflexivity.
Qed.

Lemma removeNode_log (index : Z) (w : World) :
  currentPhase (simulationState w) = NETWORK_CHANGES -> (2 < count w)%nat ->
  exists l,
    effects (worldOf (removeNode index w)) = effects w ++ l
    /\ Forall (logged w) l.
Proof.
  intros Hp Hc. unfold removeNode.
  destruct (Num.index (nodes w) index) as [this|] eqn:E; cbn [worldOf].
  - exists [FadeOut this]. split; [reflexivity|].
    repeat constructor; try assumption. eapply index_In; eauto.
  - exists []. simpl. rewrite app_nil_r. split; [reflexivity|constructor].
Qed.

Lemma body_log (env : TickEnv) (w : World) (o : Outcome) :
  body env w o ->
  exists l, effects (worldOf o) = effects w ++ l /\ Forall (logged w) l.
Proof.
  intros Hb. destruct Hb as [| |s t Hp Es Et Hst Hl| Hp |s t Hp Es Et Hb|Hp Hc|Hp Hc Hm];
    cbn [worldOf].
  - exists []. rewrite app_nil_r. split; [reflexivity|constructor].
  - exists []. rewrite app_nil_r. split; [reflexivity|constructor].
  - exists [SendPacket s t peer]. split.
    + reflexivity.
    + repeat constructor; try assumption; eapply index_In; eauto.
  - destruct (syncAll_log env w (nodes w) w O Hp (quiet_refl w)) as (l & E & F & _);
      [auto|]. eauto.
  - apply pick_lists in Et. destruct Et as [Ht Hst].
    exists [SendPacket s t transaction; SetProcessing s true]. split.
    + unfold setTimeout, withTimers, setProcessing, emit. cbn [effects].
      rewrite sendPacket_log by now right. now rewrite <- app_assoc.
    + pose proof (index_In _ _ _ Es) as Hs.
      repeat constructor; assumption.
  - now apply removeNode_log.
  - exists [CreateSphere (nextRef w)]. split; [reflexivity|].
    repeat constructor. assumption.
Qed.

Lemma finish_log (p : Phase) (w wb : World) :
  currentPhase (simulationState w) = p ->
  phaseTimer (simulationState wb) = phaseTimer (simulationState w) ->
  ((count wb < 2)%nat -> nextRef wb = nextRef w) ->
  exists l, effects (finish p wb) = effects wb ++ l /\ Forall (logged w) l.
Proof.
  intros Hp Ht Hn. unfold finish. rewrite Ht.
  destruct (Num.ltb (threshold p) (phaseTimer (simulationState w))) eqn:E.
  2:{ exists []. rewrite app_nil_r. split; [reflexivity|constructor]. }
  assert (Hu : logged w (UpdateInstructions (nextPhase p)))
    by (unfold logged; rewrite Hp; auto).
  destruct p;
    try (exists [UpdateInstructions (nextPhase (currentPhase (simulationState w)))];
         rewrite Hp; split; [reflexivity|constructor; [exact Hu|constructor]]).
  destruct (Nat.ltb_spec (count wb) 2) as [Hlt|_].
  - exists [CreateSphere (nextRef wb); UpdateInstructions DISCOVERY]. split.
    + unfold enterPhase, updateInstructions, addSecondNode, syncNodeCount,
        pushNewNode, emit. cbn [effects withState].
      rewrite <- ?app_assoc. reflexivity.
    + constructor; [|constructor; [exact Hu|constructor]].
      unfold logged. rewrite Hp. auto.
  - exists [UpdateInstructions DISCOVERY]. split; [reflexivity|].
    constructor; [exact Hu|constructor].
Qed.


Lemma body_state (env : TickEnv) (w : World) (o : Outcome) :
  body env w o ->
  clock (simulationState (worldOf o)) = clock (simulationState w)
  /\ ((count (worldOf o) < 2)%nat ->
      nextRef (worldOf o) = nextRef w /\ nodes (worldOf o) = nodes w)
  /\ (forall wb, o = Completed wb ->
        nodeCount (simulationState w) = count w ->
        nodeCount (simulationState wb) = count wb).
Proof.
  intros Hb. destruct Hb as [| |s t Hp Es Et Hst Hl| Hp |s t Hp Es Et Hb|Hp Hc|Hp Hc Hm];
    cbn [worldOf].
  - repeat split; auto. now intros wb [= <-].
  - repeat split; auto. discriminate.
  - destruct (simulationState_sendPacket s t peer w) as (A1 & A2 & A3 & A4 & A5).
    unfold setTimeout, withTimers, count. cbn [simulationState nodes nextRef].
    rewrite A1, A2, A5. repeat split; auto. now intros wb [= <-].
  - destruct (syncAll_quiet env (nodes w) w O) as (A1 & A2 & A3 & A4 & _).
    unfold count. rewrite A1, A2, A4. repeat split; auto.
    intros wb [= <-]. unfold count. now rewrite A1, A2.
  - destruct (simulationState_sendPacket s t transaction w) as (A1 & A2 & A3 & A4 & A5).
    unfold setTimeout, withTimers, setProcessing, emit, count.
    cbn [simulationState nodes nextRef].
    rewrite A1, A2, A5. repeat split; auto. now intros wb [= <-].
  - unfold removeNode.
    destruct (splice1_removeAt (nodes w) (Num.floorMul (random env 1) (count w)))
      as (n & Hn).
    pose proof (removeAt_length_ge n (nodes w)) as Hlen. rewrite <- Hn in Hlen.
    unfold count in *.
    destruct (Num.index _ _) as [this|]; cbn [worldOf].
    + split; [reflexivity|]. split.
      * unfold syncNodeCount, shutdown, emit, withHeap, withNodes, withState.
        cbn [nodes]. intros H. lia.
      * intros wb [= <-]. reflexivity.
    + split; [reflexivity|]. split; [|discriminate].
      unfold withNodes. cbn [nodes]. intros H. lia.
  - split; [reflexivity|]. split.
    + unfold addNode, syncNodeCount, pushNewNode, emit, withState, count in *.
      cbn [nodes]. rewrite length_app. simpl. intros H. lia.
    + intros wb [= <-]. reflexivity.
Qed.

(** X7. Whatever a tick adds to the renderer log is accounted for by the
    world its handler started from: a phase notification only for the
    next phase and above the threshold; a peer packet only in Discovery,
    between two different nodes of the array of which the first does not
    list the second; a block or transaction packet only in Syncing or
    Processing, between nodes of the array that list each other; a progress
    report only in Syncing and a processing highlight only as switched on
    in Processing; a new sphere or a fade-out only in the network-changes
    phase.  A tick never draws a connection line. *)
Theorem tick_log (env : TickEnv) (w : World) :
  exists l,
    effects (worldOf (tick env w)) = effects w ++ l
    /\ Forall (logged (advanceTimer env w)) l.
Proof.
  destruct (isRunning (simulationState w)) eqn:Hrun.
  2:{ exists []. unfold tick. rewrite Hrun. cbn [negb worldOf].
      rewrite app_nil_r. split; [reflexivity|constructor]. }
  destruct (tick_shape env w Hrun) as (o & Hb & ->).
  destruct (body_log env _ o Hb) as (l1 & E1 & F1).
  destruct (body_state env _ o Hb) as (Hclock & Hsmall & _).
  change (effects (advanceTimer env w)) with (effects w) in E1.
  destruct o as [wb|wb]; cbn [andThen worldOf] in *; [|eauto].
  destruct (finish_log (currentPhase (simulationState w)) (advanceTimer env w) wb)
    as (l2 & E2 & F2).
  - reflexivity.
  - unfold clock in Hclock. congruence.
  - intros H. now apply Hsmall.
  - exists (l1 ++ l2). rewrite E2, E1, <- app_assoc. split; [reflexivity|].
    apply Forall_app. auto.
Qed.


(** ** The remainder operator on non-negative numbers *)

Lemma trunc_floor (q : Q) : 0 <= q -> Num.trunc q = Qfloor q.
Proof.
  destruct q as [n d]. unfold Qle, Num.trunc, Qfloor. simpl. intros H.
  apply Z.quot_div_nonneg; lia.
Qed.

Lemma rem_bounds (a b : Q) :
  0 <= a -> 0 < b -> 0 <= Num.rem a b /\ Num.rem a b < b.
Proof.
  intros Ha Hb. unfold Num.rem.
  assert (Hq : 0 <= a / b).
  { apply Qle_shift_div_l; [assumption|]. lra. }
  rewrite (trunc_floor _ Hq).
  pose proof (Qfloor_le (a / b)) as H1.
  pose proof (Qlt_floor (a / b)) as H2.
  rewrite inject_Z_plus in H2. change (inject_Z 1) with 1 in H2.
  set (F := inject_Z (Qfloor (a / b))) in *.
  assert (E : b * (a / b) == a) by (apply Qmult_div_r; lra).
  assert (P1 : 0 <= b * (a / b - F)) by (apply Qmult_le_0_compat; lra).
  assert (P2 : 0 < b * (F + 1 - a / b)) by (apply Qmult_lt_0_compat; lra).
  split; lra.
Qed.

(** ** The syncing handler *)

Lemma syncOne_timers (env : TickEnv) (w : World) (c : nat) (n : ref) :
  timers (fst (syncOne env (w, c) n)) = timers w.
Proof.
  unfold syncOne, showSyncProgress.
  destruct (_ && _); [|reflexivity].
  destruct (pickRandomConnectedPeer _ _ _) as [r|]; [|reflexivity].
  destruct (bidirectional _ _ _); [|reflexivity].
  cbn [fst].
  destruct (simulationState_sendPacket n r block
              (emit (ShowSyncProgress n
                       (Num.rem (phaseTimer (simulationState w)) 2000 / 2000)) w))
    as (_ & _ & _ & -> & _).
  reflexivity.
Qed.

Lemma syncAll_timers (env : TickEnv) (l : list ref) (w : World) (c : nat) :
  timers (fst (fold_left (syncOne env) l (w, c))) = timers w.
Proof.
  revert w c. induction l as [|n rest IH]; intros w c; cbn [fold_left];
    [reflexivity|].
  pose proof (syncOne_timers env w c n) as Hs.
  destruct (syncOne env (w, c) n) as [w1 c1]. cbn [fst] in Hs.
  now rewrite IH.
Qed.

(** X8. A running tick of the Syncing phase reports progress exactly once
    for every node of the array, in array order and with one common value,
    [(phaseTimer % 2000) / 2000] of the advanced timer, which lies in
    [[0, 1)] when that timer is not negative; it leaves the array, the
    objects, the pending timers and [nodeCount] as they were. *)
Theorem syncing_reports_every_node (env : TickEnv) (w : World) :
  isRunning (simulationState w) = true ->
  currentPhase (simulationState w) = SYNCING ->
  let t := phaseTimer (simulationState w)
           + deltaTime env * speed (simulationState w) in
  let progress := Num.rem t 2000 / 2000 in
  exists w' l,
    tick env w = Completed w'
    /\ effects w' = effects w ++ l
    /\ filter isProgress l = map (fun n => ShowSyncProgress n progress) (nodes w)
    /\ nodes w' = nodes w /\ heap w' = heap w /\ timers w' = timers w
    /\ nodeCount (simulationState w') = nodeCount (simulationState w)
    /\ (0 <= t -> 0 <= progress /\ progress < 1).
Proof.
  intros Hrun Hp t progress.
  assert (Hrange : 0 <= t -> 0 <= progress /\ progress < 1).
  { intros Ht. destruct (rem_bounds t 2000 Ht) as [R0 R1]; [reflexivity|].
    unfold progress. split.
    - apply Qle_shift_div_l; [reflexivity|]. lra.
    - apply Qlt_shift_div_r; [reflexivity|]. lra. }
  pose (w1 := advanceTimer env w).
  destruct (syncAll_log env w1 (nodes w1) w1 O Hp (quiet_refl w1)) as (l & E & _ & P);
    [auto|].
  destruct (syncAll_quiet env (nodes w1) w1 O) as (A1 & A2 & A3 & _).
  pose proof (syncAll_timers env (nodes w1) w1 O) as A4.
  remember (fst (fold_left (syncOne env) (nodes w1) (w1, O))) as wb eqn:Ewb.
  assert (Htick : tick env w
                  = Completed (if Num.ltb 8000 (phaseTimer (simulationState wb))
                               then enterPhase PROCESSING wb else wb)).
  { unfold tick. rewrite Hrun. cbn [negb].
    change (currentPhase (simulationState (advanceTimer env w)))
      with (currentPhase (simulationState w)).
    rewrite Hp. unfold handleSyncingPhase. fold w1. rewrite <- Ewb.
    now apply (check_twice 8000 PROCESSING (fun x => x)). }
  change (effects w1) with (effects w) in E.
  change (nodes w1) with (nodes w) in A2, P.
  change (heap w1) with (heap w) in A3.
  change (timers w1) with (timers w) in A4.
  change (phaseTimer (simulationState w1)) with t in P. fold progress in P.
  assert (A5 : nodeCount (simulationState wb) = nodeCount (simulationState w))
    by now rewrite A1.
  destruct (Num.ltb 8000 (phaseTimer (simulationState wb))).
  - exists (enterPhase PROCESSING wb), (l ++ [UpdateInstructions PROCESSING]).
    destruct (enterPhase_frame PROCESSING wb) as (_ & _ & _ & F4 & F5 & F6 & F7 & _).
    rewrite F4, F5, F6, F7, E, <- app_assoc, filter_app, P. simpl.
    rewrite app_nil_r. repeat split; try apply Hrange; auto.
  - exists wb, l. repeat split; try apply Hrange; auto.
Qed.

(** ** Timers *)

(** X6. A tick never cancels a pending closure and schedules at most one
    more: in Discovery a connection between two different nodes of the
    array of which the source does not yet list the target, delayed by
    [500 / speed]; in Processing the end of a highlight for a node of the
    array that has a peer listing it back, delayed by [1000 / speed]. *)
Theorem tick_timers (env : TickEnv) (w : World) :
  let w' := worldOf (tick env w) in
  timers w' = timers w
  \/ (exists s t,
        currentPhase (simulationState w) = DISCOVERY
        /\ In s (nodes w) /\ In t (nodes w) /\ s <> t /\ lists w s t = false
        /\ timers w'
           = timers w ++ [ConnectTimeout s t (500 / speed (simulationState w))])
  \/ (exists s t,
        currentPhase (simulationState w) = PROCESSING
        /\ In s (nodes w) /\ In t (nodes w) /\ bidirectional w s t = true
        /\ timers w'
           = timers w ++ [ProcessingTimeout s (1000 / speed (simulationState w))]).
Proof.
  intros w'. subst w'.
  destruct (isRunning (simulationState w)) eqn:Hrun.
  2:{ left. unfold tick. now rewrite Hrun. }
  destruct (tick_shape env w Hrun) as (o & Hb & ->).
  assert (Hfin : forall wb,
             timers (finish (currentPhase (simulationState w)) wb) = timers wb).
  { intros wb. unfold finish.
    destruct (Num.ltb _ _); [|reflexivity].
    destruct (currentPhase (simulationState w)); try reflexivity.
    cbn [timers enterPhase]. destruct (count wb <? 2)%nat; reflexivity. }
  destruct Hb as [| |s t Hp Es Et Hst Hl| Hp |s t Hp Es Et Hb|Hp Hc|Hp Hc Hm];
    cbn [andThen worldOf]; rewrite ?Hfin.
  - now left.
  - now left.
  - right; left. exists s, t.
    destruct (simulationState_sendPacket s t peer (advanceTimer env w))
      as (_ & _ & _ & A4 & _).
    unfold setTimeout, withTimers. cbn [timers]. rewrite A4.
    repeat split; auto; eapply index_In; eauto.
  - left. apply (syncAll_timers env _ (advanceTimer env w)).
  - right; right. exists s, t. apply pick_lists in Et. destruct Et as [Ht _].
    destruct (simulationState_sendPacket s t transaction (advanceTimer env w))
      as (_ & _ & _ & A4 & _).
    unfold setTimeout, withTimers, setProcessing, emit. cbn [timers]. rewrite A4.
    repeat split; auto. eapply index_In; eauto.
  - left. unfold removeNode. destruct (Num.index _ _); cbn [andThen worldOf];
      rewrite ?Hfin; reflexivity.
  - left. reflexivity.
Qed.


(** ** Objects across a tick *)

Lemma keepsObjects_same (w w' : World) : heap w' = heap w -> keepsObjects w w'.
Proof. intros E r _. rewrite E. auto. Qed.

Lemma keepsObjects_trans (w1 w2 w3 : World) :
  (nextRef w1 <= nextRef w2)%nat ->
  keepsObjects w1 w2 -> keepsObjects w2 w3 -> keepsObjects w1 w3.
Proof.
  intros Hle H12 H23 r Hr.
  destruct (H12 r Hr) as (A1 & A2 & A3).
  destruct (H23 r ltac:(lia)) as (B1 & B2 & B3).
  repeat split; try congruence. auto.
Qed.

Lemma keepsObjects_push (pos : Vector3) (id : string) (w : World) :
  keepsObjects w (pushNewNode pos id w).
Proof.
  intros r Hr. unfold pushNewNode, emit, store. cbn [heap].
  destruct (Nat.eqb_spec r (nextRef w)); [lia|]. auto.
Qed.

Lemma keepsObjects_shutdown (this : ref) (arr : list ref) (w : World) :
  keepsObjects w (shutdown this arr w).
Proof.
  intros r _. unfold shutdown, emit, withHeap. cbn [heap].
  destruct (shutdown_fold this arr (heap w)) as (Hid & Hpos & Hconn).
  rewrite Hid, Hpos, Hconn. repeat split.
  destruct (_ && _); [|auto]. intros id. rewrite has_delete.
  intros H. apply andb_true_iff in H. apply H.
Qed.

Lemma choosePosition_plane (env : TickEnv) (w : World) :
  vy (choosePosition env w) = 0.
Proof.
  unfold choosePosition. destruct (10 <=? _)%nat; [reflexivity|].
  destruct (placementLoop_spec env w 0 1) as (_ & _ & _ & _ & _ & -> & _).
  reflexivity.
Qed.

Lemma body_heap (env : TickEnv) (w : World) (o : Outcome) :
  body env w o ->
  keepsObjects w (worldOf o)
  /\ ((nextRef (worldOf o) = nextRef w
       /\ (forall wb, o = Completed wb -> (count wb < 2)%nat -> nodes wb = nodes w))
      \/ (currentPhase (simulationState w) = NETWORK_CHANGES
          /\ (2 <= count w)%nat
          /\ nextRef (worldOf o) = S (nextRef w)
          /\ connections (heap (worldOf o) (nextRef w)) = JSSet.empty
          /\ vy (position (heap (worldOf o) (nextRef w))) = 0
          /\ nodes (worldOf o) = nodes w ++ [nextRef w])).
Proof.
  intros Hb.
  destruct (body_state env w o Hb) as (_ & Hsmall & _).
  destruct Hb as [| |s t Hp Es Et Hst Hl| Hp |s t Hp Es Et Hb|Hp Hc|Hp Hc Hm];
    cbn [worldOf] in *.
  - split; [now apply keepsObjects_same|]. left. split; [reflexivity|].
    now intros wb [= <-].
  - split; [now apply keepsObjects_same|]. left. split; [reflexivity|discriminate].
  - destruct (simulationState_sendPacket s t peer w) as (A1 & A2 & A3 & A4 & A5).
    split; [apply keepsObjects_same; exact A3|]. left. split; [exact A5|].
    intros wb [= <-] H. apply Hsmall. exact H.
  - destruct (syncAll_quiet env (nodes w) w O) as (A1 & A2 & A3 & A4 & _).
    split; [now apply keepsObjects_same|]. left. split; [exact A4|].
    intros wb [= <-] _. exact A2.
  - destruct (simulationState_sendPacket s t transaction w) as (A1 & A2 & A3 & A4 & A5).
    split; [apply keepsObjects_same; exact A3|]. left. split; [exact A5|].
    intros wb [= <-] H. apply Hsmall. exact H.
  - split.
    + unfold removeNode. destruct (Num.index _ _) as [this|]; cbn [worldOf].
      * apply (keepsObjects_shutdown this _
                 (withNodes (Num.splice1 (nodes w) (Num.floorMul (random env 1) (count w))) w)).
      * now apply keepsObjects_same.
    + left. split.
      * unfold removeNode. destruct (Num.index _ _); reflexivity.
      * intros wb E H. rewrite E in Hsmall. cbn [worldOf] in Hsmall.
        now apply Hsmall.
  - split; [apply (keepsObjects_push _ _ w)|]. right.
    destruct (addNode_spec env w) as (A1 & A2 & A3 & _).
    rewrite A1, A2, A3. cbn [connections position].
    rewrite choosePosition_plane. auto 10.
Qed.

Lemma tick_heap_facts (env : TickEnv) (w : World) :
  let w' := worldOf (tick env w) in
  keepsObjects w w'
  /\ (nextRef w' = nextRef w
      \/ (currentPhase (simulationState w) = NETWORK_CHANGES
          /\ nextRef w' = S (nextRef w)
          /\ connections (heap w' (nextRef w)) = JSSet.empty
          /\ vy (position (heap w' (nextRef w))) = 0
          /\ nodes w' = nodes w ++ [nextRef w])).
Proof.
  intros w'. subst w'.
  destruct (isRunning (simulationState w)) eqn:Hrun.
  2:{ unfold tick. rewrite Hrun. cbn [negb worldOf].
      split; [now apply keepsObjects_same|now left]. }
  destruct (tick_shape env w Hrun) as (o & Hb & ->).
  destruct (body_heap env _ o Hb) as (Hk & Hn).
  change (keepsObjects (advanceTimer env w) (worldOf o))
    with (keepsObjects w (worldOf o)) in Hk.
  change (nextRef (advanceTimer env w)) with (nextRef w) in Hn.
  change (nodes (advanceTimer env w)) with (nodes w) in Hn.
  change (count (advanceTimer env w)) with (count w) in Hn.
  change (currentPhase (simulationState (advanceTimer env w)))
    with (currentPhase (simulationState w)) in Hn.
  destruct o as [wb|wb]; cbn [andThen worldOf] in *.
  2:{ split; [assumption|]. destruct Hn as [[Hn _]|(A & _ & B)]; auto. }
  unfold finish. destruct (Num.ltb _ _).
  2:{ split; [assumption|]. destruct Hn as [[Hn _]|(A & _ & B)]; auto. }
  assert (Hplain : keepsObjects w (enterPhase (nextPhase (currentPhase (simulationState w))) wb)
                   /\ (nextRef (enterPhase (nextPhase (currentPhase (simulationState w))) wb)
                       = nextRef w
                       \/ (currentPhase (simulationState w) = NETWORK_CHANGES
                           /\ nextRef (enterPhase (nextPhase (currentPhase (simulationState w))) wb)
                              = S (nextRef w)
                           /\ connections (heap (enterPhase (nextPhase (currentPhase (simulationState w))) wb) (nextRef w)) = JSSet.empty
                           /\ vy (position (heap (enterPhase (nextPhase (currentPhase (simulationState w))) wb) (nextRef w))) = 0
                           /\ nodes (enterPhase (nextPhase (currentPhase (simulationState w))) wb)
                              = nodes w ++ [nextRef w]))).
  { split; [exact Hk|]. destruct Hn as [[Hn _]|(A & _ & B)]; auto. }
  destruct (currentPhase (simulationState w)) eqn:Hp; try exact Hplain.
  destruct (Nat.ltb_spec (count wb) 2) as [Hlt|_]; [|exact Hplain].
  destruct Hn as [[Hn Hnodes]|(_ & Hc & _ & _ & _ & Hnodes)].
  2:{ unfold count in Hlt, Hc. rewrite Hnodes, length_app in Hlt. simpl in Hlt. lia. }
  specialize (Hnodes wb eq_refl Hlt). split.
  - eapply keepsObjects_trans; [|exact Hk|apply (keepsObjects_push _ _ wb)]. lia.
  - right. split; [reflexivity|].
    unfold enterPhase, updateInstructions, addSecondNode, syncNodeCount,
      pushNewNode, emit, withState, store.
    cbn [nextRef heap nodes]. rewrite Hn, Hnodes, Nat.eqb_refl. auto.
Qed.

(** X9. A tick never renames or moves a node object that exists, and never
    adds an entry to its connection set (connections appear only when a
    timer fires).  It creates at most one object, and only in the
    network-changes phase: the new node is appended to the array, has no
    connections and lies at height 0. *)
Theorem tick_keeps_objects (env : TickEnv) (w : World) :
  let w' := worldOf (tick env w) in
  (forall r, (r < nextRef w)%nat ->
     nodeId (heap w' r) = nodeId (heap w r)
     /\ position (heap w' r) = position (heap w r)
     /\ forall a b, (a < nextRef w)%nat -> (b < nextRef w)%nat ->
                    lists w' a b = true -> lists w a b = true)
  /\ (nextRef w' = nextRef w
      \/ (currentPhase (simulationState w) = NETWORK_CHANGES
          /\ nextRef w' = S (nextRef w)
          /\ connections (heap w' (nextRef w)) = JSSet.empty
          /\ vy (position (heap w' (nextRef w))) = 0
          /\ nodes w' = nodes w ++ [nextRef w])).
Proof.
  intros w'. destruct (tick_heap_facts env w) as (Hk & Hn). fold w' in Hk, Hn.
  split; [|exact Hn].
  intros r Hr. destruct (Hk r Hr) as (A1 & A2 & _). repeat split; auto.
  intros a b Ha Hb. unfold lists.
  destruct (Hk a Ha) as (_ & _ & A3). destruct (Hk b Hb) as (B1 & _).
  rewrite B1. apply A3.
Qed.


(** ** Invariants of the timer, the counter and the positions *)

Lemma position_connectTo (a b : ref) (w : World) (x : ref) :
  position (heap (connectTo a b w) x) = position (heap w x).
Proof.
  unfold connectTo. destruct (JSSet.has _ _); simpl; [reflexivity|].
  now rewrite !position_setConnections.
Qed.

Lemma tick_state_facts (env : TickEnv) (w w' : World) :
  tick env w = Completed w' ->
  0 <= deltaTime env * speed (simulationState w) ->
  (0 <= phaseTimer (simulationState w)
   /\ phaseTimer (simulationState w) <= threshold (currentPhase (simulationState w)) ->
   0 <= phaseTimer (simulationState w')
   /\ phaseTimer (simulationState w') <= threshold (currentPhase (simulationState w')))
  /\ (nodeCount (simulationState w) = count w ->
      nodeCount (simulationState w') = count w').
Proof.
  intros Hw Hd.
  destruct (isRunning (simulationState w)) eqn:Hrun.
  2:{ unfold tick in Hw. rewrite Hrun in Hw. cbn [negb] in Hw.
      injection Hw as <-. auto. }
  destruct (tick_shape env w Hrun) as (o & Hb & E). rewrite E in Hw.
  destruct o as [wb|wb]; cbn [andThen] in Hw; [|discriminate].
  injection Hw as <-.
  destruct (body_state env _ _ Hb) as (Hclock & _ & Hcount).
  cbn [worldOf] in Hclock. specialize (Hcount wb eq_refl).
  assert (Ht : phaseTimer (simulationState wb)
               = phaseTimer (simulationState w)
                 + deltaTime env * speed (simulationState w))
    by exact (f_equal snd Hclock).
  assert (Hp : currentPhase (simulationState wb) = currentPhase (simulationState w))
    by exact (f_equal (fun c => snd (fst (fst c))) Hclock).
  change (nodeCount (simulationState (advanceTimer env w)))
    with (nodeCount (simulationState w)) in Hcount.
  change (count (advanceTimer env w)) with (count w) in Hcount.
  unfold finish. destruct (Num.ltb _ _) eqn:Hlt.
  - split.
    + intros _.
      destruct (enterPhase_frame (nextPhase (currentPhase (simulationState w)))
                  (match currentPhase (simulationState w) with
                   | NETWORK_CHANGES =>
                       if (count wb <? 2)%nat then addSecondNode wb else wb
                   | _ => wb
                   end)) as (-> & -> & _).
      split; [apply Qle_refl|].
      destruct (currentPhase (simulationState w)); discriminate.
    + intros H. specialize (Hcount H).
      destruct (currentPhase (simulationState w)); try exact Hcount.
      destruct (count wb <? 2)%nat; [reflexivity|exact Hcount].
  - apply ltb_ge in Hlt. split; [|exact Hcount].
    intros (H0 & _). rewrite Hp. split; [|exact Hlt].
    rewrite Ht. lra.
Qed.

Lemma step_state_facts (w w' : World) :
  step w w' ->
  speed (simulationState w) = 1 -> nodes w <> [] ->
  (0 <= phaseTimer (simulationState w)
   /\ phaseTimer (simulationState w) <= threshold (currentPhase (simulationState w)) ->
   0 <= phaseTimer (simulationState w')
   /\ phaseTimer (simulationState w') <= threshold (currentPhase (simulationState w')))
  /\ (nodeCount (simulationState w) = count w ->
      nodeCount (simulationState w') = count w')
  /\ ((forall r, (r < nextRef w)%nat -> vy (position (heap w r)) = 0) ->
      forall r, (r < nextRef w')%nat -> vy (position (heap w' r)) = 0).
Proof.
  intros Hstep Hs Hne. destruct Hstep as [env w Hv|w|w|k w].
  - destruct (tick_completes env w Hv Hne) as (w' & Hw).
    destruct (tick_state_facts env w w' Hw) as (A1 & A2).
    { rewrite Hs. destruct Hv as (Hd & _). lra. }
    destruct (tick_heap_facts env w) as (Hk & Hn).
    rewrite Hw in *. cbn [worldOf] in *.
    split; [exact A1|]. split; [exact A2|].
    intros Hplane r Hr.
    destruct (Nat.lt_ge_cases r (nextRef w)) as [Hold|Hnew].
    + destruct (Hk r Hold) as (_ & -> & _). now apply Hplane.
    + destruct Hn as [Hn|(_ & Hn & _ & Hy & _)]; [lia|].
      assert (r = nextRef w) as -> by lia. exact Hy.
  - unfold playPause. simpl. auto.
  - unfold toggleTheme. simpl. auto.
  - destruct (fireTimeout_frame k w) as (A1 & A2 & _ & _ & A5).
    unfold count. rewrite A1, A2, A5. split; [auto|]. split; [auto|].
    intros Hplane r Hr. unfold fireTimeout.
    destruct (nth_error (timers w) k) as [[a b d|a d]|]; cbn [runTimer].
    + rewrite position_connectTo. now apply Hplane.
    + now apply Hplane.
    + now apply Hplane.
Qed.

Lemma reachable_state_facts (w : World) :
  reachable w ->
  0 <= phaseTimer (simulationState w)
  /\ phaseTimer (simulationState w) <= threshold (currentPhase (simulationState w))
  /\ nodeCount (simulationState w) = count w
  /\ forall r, (r < nextRef w)%nat -> vy (position (heap w r)) = 0.
Proof.
  intros Hr. pose proof Hr as Hr'. revert Hr'.
  unfold reachable at 1. remember initialWorld as w0 eqn:E0.
  induction 1 as [|w1 w2 w3 H12 IH Hstep]; subst.
  - split; [discriminate|]. split; [discriminate|]. split; [reflexivity|].
    intros r Hlt. simpl in Hlt. assert (r = 0%nat) as -> by lia. reflexivity.
  - destruct (IH H12 eq_refl) as (B1 & B2 & B3 & B4).
    destruct (reachable_bounds w2 H12) as (_ & Hs & _ & Hc & _).
    destruct (step_state_facts w2 w3 Hstep Hs) as (A1 & A2 & A3).
    { unfold count in Hc. destruct (nodes w2); [simpl in Hc; lia|discriminate]. }
    destruct (A1 (conj B1 B2)). auto.
Qed.

(** X1. The phase timer of a reachable world is never negative and never
    above the duration of the current phase: the frame that pushes it
    over the limit is the frame that resets it to 0. *)
Theorem phaseTimer_in_range (w : World) :
  reachable w ->
  0 <= phaseTimer (simulationState w)
  /\ phaseTimer (simulationState w) <= threshold (currentPhase (simulationState w)).
Proof.
  intros Hr. destruct (reachable_state_facts w Hr) as (A & B & _). now split.
Qed.

(** X2. [simulationState.nodeCount] always equals [nodes.length]: the
    removal, the addition and the forced second node each write it after
    changing the array, and nothing else changes either. *)
Theorem nodeCount_mirrors_array (w : World) :
  reachable w -> nodeCount (simulationState w) = count w.
Proof.
  intros Hr. now destruct (reachable_state_facts w Hr) as (_ & _ & C & _).
Qed.

(** X3. Every node of the array lies in the plane [y = 0], wherever the
    placement loop put it and whatever happened since. *)
Theorem nodes_stay_in_plane (w : World) (r : ref) :
  reachable w -> In r (nodes w) -> vy (position (heap w r)) = 0.
Proof.
  intros Hr Hin. destruct (reachable_state_facts w Hr) as (_ & _ & _ & D).
  apply D. destruct (reachable_distinctNodes w Hr) as (_ & Hlt). now apply Hlt.
Qed.

(** X4. The render callback never throws on a reachable world: with a
    frame time that is not negative and [Math.random()] in [[0, 1)] it
    returns, and the world it returns is reachable again. *)
Theorem reachable_tick_returns (env : TickEnv) (w : World) :
  reachable w -> validEnv env ->
  exists w', tick env w = Completed w' /\ reachable w'.
Proof.
  intros Hr Hv. destruct (reachable_bounds w Hr) as (_ & _ & _ & Hc & _).
  destruct (tick_completes env w Hv) as (w' & Hw).
  { unfold count in Hc. destruct (nodes w); [simpl in Hc; lia|discriminate]. }
  exists w'. split; [exact Hw|].
  replace w' with (worldOf (tick env w)) by now rewrite Hw.
  eapply steps_snoc; [exact Hr|now apply step_tick].
Qed.


(** ** When the callback throws *)

Lemma index_nil {A} (i : Z) : Num.index (@nil A) i = None.
Proof.
  unfold Num.index. destruct (i <? 0)%Z; [reflexivity|].
  now destruct (Z.to_nat i).
Qed.

Lemma handleDiscoveryPhase_empty (env : TickEnv) (w : World) :
  nodes w = [] -> exists w', handleDiscoveryPhase env w = Completed w'.
Proof.
  intros Hn. unfold handleDiscoveryPhase. rewrite Hn, !index_nil.
  destruct (Num.ltb (Num.rem _ _) 1); cbn [andThen];
    destruct (Num.ltb 5000 _); eauto.
Qed.

Lemma handleNetworkChanges_empty (env : TickEnv) (w : World) :
  nodes w = [] -> exists w', handleNetworkChanges env w = Completed w'.
Proof.
  intros Hn. unfold handleNetworkChanges. rewrite Hn.
  cbn [List.length Nat.leb]. rewrite andb_false_r. cbn [andThen].
  destruct (Num.ltb 7000 _); eauto.
Qed.

Lemma handleProcessingPhase_empty (env : TickEnv) (w : World) :
  nodes w = [] ->
  handleProcessingPhase env w
  = if Num.ltb (Num.rem (currentStep (simulationState w))
                  (5 / speed (simulationState w))) 1
    then TypeError w
    else if Num.ltb 6000 (phaseTimer (simulationState w))
         then Completed (enterPhase NETWORK_CHANGES w)
         else Completed w.
Proof.
  intros Hn. unfold handleProcessingPhase. rewrite Hn, index_nil.
  destruct (Num.ltb (Num.rem _ _) 1); reflexivity.
Qed.

(** X5. The render callback throws in exactly one situation: the
    simulation runs, the phase is Processing, the transaction cadence
    [currentStep % (5 / speed) < 1] holds and the node array is empty, so
    that [sourceNode] is [undefined].  Discovery, Syncing and the
    network-changes handler return on an empty array. *)
Theorem tick_throws_iff (env : TickEnv) (w : World) :
  validEnv env ->
  ((exists w', tick env w = TypeError w')
   <-> isRunning (simulationState w) = true
       /\ currentPhase (simulationState w) = PROCESSING
       /\ Num.ltb (Num.rem (currentStep (simulationState w))
                     (5 / speed (simulationState w))) 1 = true
       /\ nodes w = []).
Proof.
  intros Hv.
  assert (Hadv : nodes w = [] -> nodes (advanceTimer env w) = [])
    by (intros H; exact H).
  split.
  - intros (w' & Hw).
    destruct (nodes w) as [|n rest] eqn:Hn.
    2:{ destruct (tick_completes env w Hv) as (w2 & E);
          [rewrite Hn; discriminate|].
        rewrite E in Hw. discriminate. }
    specialize (Hadv eq_refl).
    unfold tick in Hw. destruct (isRunning _); cbn [negb] in Hw; [|discriminate].
    change (currentPhase (simulationState (advanceTimer env w)))
      with (currentPhase (simulationState w)) in Hw.
    destruct (currentPhase (simulationState w)).
    + destruct (handleDiscoveryPhase_empty env _ Hadv) as (w2 & E).
      rewrite E in Hw. cbn [andThen] in Hw.
      destruct (Num.ltb _ _); discriminate.
    + unfold handleSyncingPhase in Hw.
      destruct (Num.ltb 8000 _); cbn [andThen] in Hw;
        destruct (Num.ltb _ _); discriminate.
    + rewrite (handleProcessingPhase_empty env _ Hadv) in Hw.
      change (currentStep (simulationState (advanceTimer env w)))
        with (currentStep (simulationState w)) in Hw.
      change (speed (simulationState (advanceTimer env w)))
        with (speed (simulationState w)) in Hw.
      destruct (Num.ltb (Num.rem _ _) 1); [auto|].
      exfalso. destruct (Num.ltb 6000 _); cbn [andThen] in Hw;
        destruct (Num.ltb _ _); discriminate.
    + destruct (handleNetworkChanges_empty env _ Hadv) as (w2 & E).
      rewrite E in Hw. cbn [andThen] in Hw.
      destruct (Num.ltb _ _); discriminate.
  - intros (Hrun & Hp & Hg & Hn). exists (advanceTimer env w).
    unfold tick. rewrite Hrun. cbn [negb].
    change (currentPhase (simulationState (advanceTimer env w)))
      with (currentPhase (simulationState w)).
    rewrite Hp, (handleProcessingPhase_empty env _ (Hadv Hn)).
    change (currentStep (simulationState (advanceTimer env w)))
      with (currentStep (simulationState w)).
    change (speed (simulationState (advanceTimer env w)))
      with (speed (simulationState w)).
    now rewrite Hg.
Qed.

(** ** Leaving and rejoining *)

Lemma delete_fresh (x : string) (s : JSSet.t) :
  JSSet.has x s = false -> JSSet.delete x s = s.
Proof.
  unfold JSSet.has, JSSet.delete. induction s as [|y s IH]; simpl; [reflexivity|].
  intros H. apply orb_false_iff in H. destruct H as [H1 H2].
  rewrite H1. simpl. now rewrite IH.
Qed.

Lemma delete_add_fresh (x : string) (s : JSSet.t) :
  JSSet.has x s = false -> JSSet.delete x (JSSet.add x s) = s.
Proof.
  intros H. unfold JSSet.add. rewrite H. unfold JSSet.delete.
  rewrite filter_app. simpl. rewrite String.eqb_refl. simpl.
  rewrite app_nil_r. now apply delete_fresh.
Qed.

(** X10. [shutdown] summarised: the loop deletes the leaving node's
    identifier from the set of every other node of the array it is given,
    keeping the other entries and their order; it leaves alone the sets of
    nodes outside that array and the leaving node's own set, every
    identifier and position, the array, the state and the pending timers,
    and it starts one fade-out. *)
Theorem shutdown_spec (this : ref) (arr : list ref) (w : World) :
  let w' := shutdown this arr w in
  (forall x, In x arr -> x <> this ->
     connections (heap w' x)
     = JSSet.delete (nodeId (heap w this)) (connections (heap w x)))
  /\ (forall x, ~ In x arr -> connections (heap w' x) = connections (heap w x))
  /\ connections (heap w' this) = connections (heap w this)
  /\ (forall x, nodeId (heap w' x) = nodeId (heap w x)
                /\ position (heap w' x) = position (heap w x))
  /\ nodes w' = nodes w
  /\ simulationState w' = simulationState w
  /\ timers w' = timers w
  /\ effects w' = effects w ++ [FadeOut this].
Proof.
  intros w'. subst w'. unfold shutdown, emit, withHeap.
  cbn [heap nodes simulationState timers effects].
  destruct (shutdown_fold this arr (heap w)) as (Hid & Hpos & Hconn).
  split; [|split; [|split; [|split]]].
  - intros x Hin Hx. rewrite Hconn.
    apply existsb_eqb_In in Hin. rewrite Hin.
    destruct (Nat.eqb_spec x this); [contradiction|reflexivity].
  - intros x Hin. rewrite Hconn.
    destruct (existsb (Nat.eqb x) arr) eqn:E; [|reflexivity].
    apply existsb_eqb_In in E. contradiction.
  - rewrite Hconn, Nat.eqb_refl. now rewrite andb_false_r.
  - intros x. now rewrite Hid, Hpos.
  - auto.
Qed.

(** X11. A node that joins and leaves again is forgotten: if no other
    node lists [a], then after [a.connectTo(b)] followed by
    [a.shutdown(scene, arr)] with [b] in [arr], every node other than [a]
    has exactly the connection set it had before. *)
Theorem connect_then_shutdown (a b : ref) (arr : list ref) (w : World) :
  a <> b -> In b arr ->
  lists w a b = false ->
  (forall x, x <> a -> lists w x a = false) ->
  forall x, x <> a ->
    connections (heap (shutdown a arr (connectTo a b w)) x)
    = connections (heap w x).
Proof.
  intros Hab Hb Hl Hfresh x Hx.
  destruct (connections_connectTo a b w Hl) as (_ & Cb & Cother).
  unfold shutdown, emit, withHeap. cbn [heap].
  destruct (shutdown_fold a arr (heap (connectTo a b w))) as (_ & _ & Hconn).
  rewrite Hconn, nodeId_connectTo.
  destruct (Nat.eqb_spec x a) as [|_]; [contradiction|]. rewrite andb_true_r.
  destruct (Nat.eq_dec x b) as [->|Hxb].
  - apply existsb_eqb_In in Hb. rewrite Hb, Cb.
    apply delete_add_fresh. apply (Hfresh b). auto.
  - rewrite (Cother x Hx Hxb).
    destruct (existsb (Nat.eqb x) arr); [|reflexivity].
    apply delete_fresh. now apply (Hfresh x).
Qed.

(** ** Identifiers of added nodes *)

Lemma toString_inj (a b : Z) : Num.toString a = Num.toString b -> a = b.
Proof.
  unfold Num.toString. intros H. apply DecimalZ.to_int_inj.
  assert (Hnn : forall z, Z.to_int z <> Decimal.Pos Decimal.Nil
                          /\ Z.to_int z <> Decimal.Neg Decimal.Nil).
  { intros z. destruct z; simpl; split; try discriminate;
      intros [= E]; now apply Unsigned.to_uint_nonnil in E. }
  assert (E : Some (Z.to_int a) = Some (Z.to_int b)).
  { rewrite <- (NilZero.isi (Z.to_int a)) by apply Hnn.
    rewrite <- (NilZero.isi (Z.to_int b)) by apply Hnn.
    now rewrite H. }
  now injection E.
Qed.

(** X12. The node of the add branch is named after the clock alone: its
    identifier is the one a reading [z] of [Date.now()] gives exactly when
    the clock read [z].  Two added nodes therefore share an identifier
    exactly when their frames read the same clock value, and the new
    identifier is ["node-0"] or ["node-1"], the names of the two fixed
    nodes, exactly when the clock reads 0 or 1. *)
Theorem addNode_id_iff (env : TickEnv) (w : World) :
  (forall z, nodeId (heap (addNode env w) (nextRef w))
             = String.append "node-" (Num.toString z) <-> now env = z)
  /\ (forall env2 w2,
        nodeId (heap (addNode env w) (nextRef w))
        = nodeId (heap (addNode env2 w2) (nextRef w2)) <-> now env = now env2)
  /\ (nodeId (heap (addNode env w) (nextRef w)) = "node-0" <-> now env = 0%Z)
  /\ (nodeId (heap (addNode env w) (nextRef w)) = "node-1" <-> now env = 1%Z).
Proof.
  assert (Hid : forall e v, nodeId (heap (addNode e v) (nextRef v))
                            = String.append "node-" (Num.toString (now e))).
  { intros e v. destruct (addNode_spec e v) as (_ & -> & _). reflexivity. }
  assert (Hz : forall z, nodeId (heap (addNode env w) (nextRef w))
                         = String.append "node-" (Num.toString z) <-> now env = z).
  { intros z. rewrite Hid. split; [|now intros ->].
    intros H. simpl in H. injection H as H. now apply toString_inj. }
  split; [exact Hz|]. split; [|split].
  - intros env2 w2. rewrite (Hid env2 w2). apply Hz.
  - apply (Hz 0%Z).
  - apply (Hz 1%Z).
Qed.

(** ** Choosing a peer *)

Lemma find_first {A} (f : A -> bool) (l : list A) (x : A) :
  find f l = Some x ->
  f x = true
  /\ exists l1 l2, l = l1 ++ x :: l2 /\ forall y, In y l1 -> f y = false.
Proof.
  induction l as [|y l IH]; simpl; [discriminate|].
  destruct (f y) eqn:E.
  - intros [= <-]. split; [exact E|]. exists [], l. split; [reflexivity|].
    intros z [].
  - intros H. destruct (IH H) as (Hx & l1 & l2 & -> & Hl1). split; [exact Hx|].
    exists (y :: l1), l2. split; [reflexivity|].
    intros z [<-|Hz]; auto.
Qed.

(** X13. The peer selection of the syncing and processing handlers:
    a node without connections has no peer; a peer that is returned is
    listed by the node and is the first node of the array that carries the
    drawn identifier, so a later node with the same identifier is never
    chosen; and when [Math.random()] is in [[0, 1)], the set is not empty
    and each of its identifiers belongs to a node of the array, a peer is
    returned. *)
Theorem pickRandomConnectedPeer_spec (w : World) (node : ref) (r : Q) :
  (connections (heap w node) = [] -> pickRandomConnectedPeer w node r = None)
  /\ (forall t, pickRandomConnectedPeer w node r = Some t ->
        lists w node t = true
        /\ exists before after,
             nodes w = before ++ t :: after
             /\ forall y, In y before -> nodeId (heap w y) <> nodeId (heap w t))
  /\ (0 <= r -> r < 1 -> connections (heap w node) <> [] ->
      (forall id, In id (connections (heap w node)) ->
                  exists n, In n (nodes w) /\ nodeId (heap w n) = id) ->
      exists t, pickRandomConnectedPeer w node r = Some t).
Proof.
  unfold pickRandomConnectedPeer. split; [|split].
  - intros ->. now rewrite index_nil.
  - intros t H. split; [exact (proj2 (pick_lists w node r t H))|].
    destruct (Num.index _ _) as [id|]; [|discriminate].
    apply find_first in H. destruct H as (Ht & l1 & l2 & E & Hl1).
    apply String.eqb_eq in Ht. exists l1, l2. split; [exact E|].
    intros y Hy Heq. specialize (Hl1 y Hy). rewrite Heq, Ht in Hl1.
    now rewrite String.eqb_refl in Hl1.
  - intros H0 H1 Hne Hall.
    assert (Hlen : (0 < List.length (connections (heap w node)))%nat)
      by (destruct (connections (heap w node)); [congruence|simpl; lia]).
    destruct (index_Some _ _ (floorMul_range r _ H0 H1 Hlen)) as (id & -> & _ & Hin).
    destruct (Hall id Hin) as (n & Hn & Hid).
    destruct (find _ (nodes w)) as [t|] eqn:E; [eauto|].
    apply (find_none _ _ E) in Hn. rewrite Hid, String.eqb_refl in Hn.
    discriminate.
Qed.

(** ** Pending closures *)

(** X14. A pending connection closure does its work whenever it runs,
    paused or not and whatever the phase: afterwards the source lists the
    target; if it did not before, the target lists the source too and one
    line is drawn, otherwise nothing changes.  The closure is taken off the
    pending list, the others keep their order, and the state and the
    array are as before. *)
Theorem connect_timer_fires (k : nat) (w : World) (s t : ref) (d : Q) :
  nth_error (timers w) k = Some (ConnectTimeout s t d) ->
  let w' := fireTimeout k w in
  lists w' s t = true
  /\ (lists w s t = false ->
      lists w' t s = true /\ effects w' = effects w ++ [CreateLines s t])
  /\ (lists w s t = true -> heap w' = heap w /\ effects w' = effects w)
  /\ timers w' = Num.removeAt k (timers w)
  /\ List.length (timers w') = Nat.pred (List.length (timers w))
  /\ simulationState w' = simulationState w
  /\ nodes w' = nodes w.
Proof.
  intros Hk w'. subst w'. unfold fireTimeout. rewrite Hk. cbn [runTimer].
  set (w1 := withTimers (Num.removeAt k (timers w)) w).
  assert (Hl1 : lists w1 s t = lists w s t) by reflexivity.
  destruct (connectTo_frame s t w1) as (A1 & A2 & A3 & _).
  destruct (connectTo_adds_both s t w1) as (B1 & B2).
  split; [exact B1|]. split; [|split; [|split; [|split; [|split]]]].
  - intros H. rewrite <- Hl1 in H. split; [now apply B2|].
    unfold connectTo. unfold lists in H. now rewrite H.
  - intros H. rewrite <- Hl1 in H. now rewrite (connectTo_noop s t w1 H).
  - exact A3.
  - rewrite A3. apply removeAt_length.
    apply nth_error_Some. rewrite Hk. discriminate.
  - exact A2.
  - exact A1.
Qed.


(** ** Pausing *)

(** X15. While the simulation is paused, only the play button resumes it:
    any other event (a frame, the theme button, a closure that fires)
    leaves it paused with the same phase, timer, array, counter and
    allocation counter; closures still run, so connections may appear. *)
Theorem paused_step (w w' : World) :
  step w w' -> isRunning (simulationState w) = false ->
  w' = playPause w
  \/ (isRunning (simulationState w') = false
      /\ currentPhase (simulationState w') = currentPhase (simulationState w)
      /\ phaseTimer (simulationState w') = phaseTimer (simulationState w)
      /\ nodeCount (simulationState w') = nodeCount (simulationState w)
      /\ nodes w' = nodes w
      /\ nextRef w' = nextRef w).
Proof.
  intros Hstep Hp. destruct Hstep as [env w Hv|w|w|k w].
  - right. unfold tick. rewrite Hp. cbn [negb worldOf]. auto 10.
  - now left.
  - right. unfold toggleTheme. simpl. auto 10.
  - right. destruct (fireTimeout_frame k w) as (A1 & A2 & _ & _ & A5).
    rewrite A1, A2, A5. auto 10.
Qed.


(** ** Membership changes only in the network-changes phase *)

Lemma body_membership (env : TickEnv) (w : World) (o : Outcome) :
  body env w o ->
  currentPhase (simulationState w) <> NETWORK_CHANGES ->
  heap (worldOf o) = heap w
  /\ nodes (worldOf o) = nodes w
  /\ nextRef (worldOf o) = nextRef w
  /\ nodeCount (simulationState (worldOf o)) = nodeCount (simulationState w).
Proof.
  intros Hb Hnc.
  destruct Hb as [| |s t Hp Es Et Hst Hl| Hp |s t Hp Es Et Hb|Hp Hc|Hp Hc Hm];
    cbn [worldOf]; try contradiction.
  - auto.
  - auto.
  - destruct (simulationState_sendPacket s t peer w) as (A1 & A2 & A3 & A4 & A5).
    unfold setTimeout, withTimers. cbn [heap nodes nextRef simulationState].
    now rewrite A1, A2, A3, A5.
  - destruct (syncAll_quiet env (nodes w) w O) as (A1 & A2 & A3 & A4 & _).
    now rewrite A1, A2, A3, A4.
  - destruct (simulationState_sendPacket s t transaction w) as (A1 & A2 & A3 & A4 & A5).
    unfold setTimeout, withTimers, setProcessing, emit.
    cbn [heap nodes nextRef simulationState].
    now rewrite A1, A2, A3, A5.
Qed.

(** X18. Outside the network-changes phase a tick leaves the network as
    it is: the array, every node object with its connection set, the
    allocation counter and [nodeCount] are unchanged, whether the handler
    returns or throws.  Connections change only when a pending closure
    runs or a node is removed. *)
Theorem tick_membership_frame (env : TickEnv) (w : World) :
  currentPhase (simulationState w) <> NETWORK_CHANGES ->
  let w' := worldOf (tick env w) in
  heap w' = heap w
  /\ nodes w' = nodes w
  /\ nextRef w' = nextRef w
  /\ nodeCount (simulationState w') = nodeCount (simulationState w).
Proof.
  intros Hnc w'. subst w'.
  destruct (isRunning (simulationState w)) eqn:Hrun.
  2:{ unfold tick. rewrite Hrun. cbn [negb worldOf]. auto. }
  destruct (tick_shape env w Hrun) as (o & Hb & ->).
  destruct (body_membership env _ o Hb Hnc) as (A1 & A2 & A3 & A4).
  change (heap (advanceTimer env w)) with (heap w) in A1.
  change (nodes (advanceTimer env w)) with (nodes w) in A2.
  change (nextRef (advanceTimer env w)) with (nextRef w) in A3.
  change (nodeCount (simulationState (advanceTimer env w)))
    with (nodeCount (simulationState w)) in A4.
  destruct o as [wb|wb]; cbn [andThen worldOf] in *; [|auto].
  unfold finish. destruct (Num.ltb _ _); [|auto].
  destruct (currentPhase (simulationState w)); try contradiction;
    unfold enterPhase, updateInstructions, emit, withState;
    cbn [heap nodes nextRef simulationState nodeCount setPhaseTimer setCurrentPhase];
    auto.
Qed.

End Simulation.

(** * The properties on concrete runs *)

Lemma steady_valid (delta r : Q) (clockMs : Z) :
  Qle_bool 0 delta = true -> Qle_bool 0 r = true -> Num.ltb r 1 = true ->
  validEnv (Demo.steady delta r clockMs).
Proof.
  intros Hd Hr0 Hr1. split; [now apply Qle_bool_imp_le|].
  intros i. split; [now apply Qle_bool_imp_le|now apply ltb_lt].
Defined.




Lemma removeNode_purges_witness :
  exists w', removeNode 1 Demo.linked = Completed w'
             /\ forall x, In x (nodes w') -> lists w' x 1%nat = false.
Proof.
  destruct (removeNode_purges 1 Demo.linked) as (this & w' & E & Hrm & _ & _ & _ & _ & Hl & _).
  - simpl. repeat constructor; simpl; intros H; repeat destruct H as [H|H];
      try discriminate; assumption.
  - unfold count. simpl. lia.
  - vm_compute in E. injection E as <-. exists w'. split; assumption.
Defined.

Lemma node_count_bounds_witness :
  inject_Z (Z.of_nat
    (count (worldOf (tick Sample.cos Sample.sin Sample.PI Demo.firstFrame initialWorld))))
  <= maxNodes (worldOf (tick Sample.cos Sample.sin Sample.PI Demo.firstFrame initialWorld)).
Proof.
  refine (proj1 (node_count_bounds Sample.cos Sample.sin Sample.PI _ _)).
  eapply steps_snoc; [apply steps_refl|]. apply step_tick.
  apply steady_valid; reflexivity.
Defined.

Lemma phase_cycle_witness :
  exists w',
    tick Sample.cos Sample.sin Sample.PI Demo.firstFrame initialWorld = Completed w'
    /\ currentPhase (simulationState w') = DISCOVERY.
Proof.
  destruct (proj1 (proj2 (phase_cycle Sample.cos Sample.sin Sample.PI))
              Demo.firstFrame initialWorld) as (w' & Hw & Habove & _).
  - apply steady_valid; reflexivity.
  - discriminate.
  - reflexivity.
  - exists w'. split; [exact Hw|]. apply Habove. reflexivity.
Defined.

Lemma paused_ticks_change_nothing_witness :
  ticks Sample.cos Sample.sin Sample.PI Demo.tenFrames (playPause initialWorld)
  = Completed (playPause initialWorld).
Proof. apply paused_ticks_change_nothing. reflexivity. Defined.

Lemma startup_tick_witness :
  exists w',
    tick Sample.cos Sample.sin Sample.PI (mkTickEnv 200 (fun _ => 1 # 3) 0) initialWorld
    = Completed w'
    /\ vx (position (heap w' 1%nat)) == - vx (position (heap w' 0%nat))
    /\ vy (position (heap w' 1%nat)) == - vy (position (heap w' 0%nat))
    /\ vz (position (heap w' 1%nat)) == - vz (position (heap w' 0%nat)).
Proof.
  destruct (startup_tick Sample.cos Sample.sin Sample.PI (fun _ => 1 # 3) 0)
    as (_ & _ & _ & _ & _ & _ & _ & w' & Hw & _ & _ & _ & _ & _ & _ & Hopposite).
  exists w'. split; [exact Hw|]. apply Hopposite; reflexivity.
Defined.

(** C6 as stated fails: on the start-up world, connecting ["node-0"] to
    itself puts its own identifier into its connection set. *)
Lemma connectTo_self_counterexample :
  lists initialWorld 0%nat 0%nat = false
  /\ connections (heap initialWorld 0%nat) = []
  /\ connections (heap (connectTo 0%nat 0%nat initialWorld) 0%nat) = ["node-0"]
  /\ connectTo 0%nat 0%nat initialWorld <> initialWorld.
Proof.
  repeat split. intros H.
  apply (f_equal (fun w => connections (heap w 0%nat))) in H. discriminate H.
Qed.

Lemma connectTo_amended_witness :
  connectTo 0%nat 1%nat Demo.linked = Demo.linked.
Proof.
  apply (proj1 (connectTo_amended Sample.cos Sample.sin Sample.PI)). reflexivity.
Defined.

Lemma placement_terminates_witness :
  exists alternateRadius,
    choosePosition Sample.cos Sample.sin Sample.PI Demo.firstFrame initialWorld
    = ringPosition Sample.cos Sample.sin alternateRadius
        (angle (placementLoop Sample.cos Sample.sin Sample.PI Demo.firstFrame initialWorld 0 1))
    /\ radius * 1 <= alternateRadius
    /\ alternateRadius <= radius * 1.4.
Proof.
  apply (proj1 (proj2 (proj2 (proj2
           (placement_terminates Sample.cos Sample.sin Sample.PI
              Demo.firstFrame initialWorld))))).
  - reflexivity.
  - split; [discriminate|reflexivity].
Defined.

Lemma currentStep_is_constant_witness :
  Num.ltb (Num.rem 0 (3 / 2)) 1 = true /\ Num.ltb (Num.rem 0 (5 / 2)) 1 = true.
Proof.
  apply (proj1 (proj2 (proj2 (proj2
           (currentStep_is_constant Sample.cos Sample.sin Sample.PI))))).
  reflexivity.
Defined.

Lemma clockStuck_valid : Forall validEnv Demo.clockStuck.
Proof. repeat constructor; apply steady_valid; reflexivity. Qed.

(** C9. The add branch names the new node after [Date.now()]: a run that
    starts at start-up, reaches the network-changes phase and then adds a
    node in each of two frames that read the same clock value ends with two
    nodes in the array that carry the same identifier. *)
Theorem addNode_reuses_id :
  exists w,
    ticks Sample.cos Sample.sin Sample.PI Demo.clockStuck initialWorld = Completed w
    /\ reachable Sample.cos Sample.sin Sample.PI w
    /\ nodes w = [0; 1; 2; 3]%nat
    /\ nodeId (heap w 2%nat) = "node-1700000000000"
    /\ nodeId (heap w 3%nat) = "node-1700000000000"
    /\ connections (heap w 3%nat) = JSSet.empty.
Proof.
  eexists. split; [vm_compute; reflexivity|]. split.
  - eapply ticks_reachable;
      [exact clockStuck_valid|apply steps_refl|vm_compute; reflexivity].
  - repeat split; reflexivity.
Qed.

(** * Further properties on concrete runs *)

Lemma firstFrame_reachable :
  reachable Sample.cos Sample.sin Sample.PI
    (worldOf (tick Sample.cos Sample.sin Sample.PI Demo.firstFrame initialWorld)).
Proof.
  eapply steps_snoc; [apply steps_refl|]. apply step_tick.
  apply steady_valid; reflexivity.
Defined.

Lemma phaseTimer_in_range_witness :
  0 <= phaseTimer (simulationState
         (worldOf (tick Sample.cos Sample.sin Sample.PI Demo.firstFrame initialWorld)))
  /\ phaseTimer (simulationState
         (worldOf (tick Sample.cos Sample.sin Sample.PI Demo.firstFrame initialWorld)))
     <= threshold (currentPhase (simulationState
          (worldOf (tick Sample.cos Sample.sin Sample.PI Demo.firstFrame initialWorld)))).
Proof.
  apply (phaseTimer_in_range Sample.cos Sample.sin Sample.PI).
  exact firstFrame_reachable.
Defined.

Lemma nodeCount_mirrors_array_witness :
  nodeCount (simulationState
    (worldOf (tick Sample.cos Sample.sin Sample.PI Demo.firstFrame initialWorld)))
  = count (worldOf (tick Sample.cos Sample.sin Sample.PI Demo.firstFrame initialWorld)).
Proof.
  apply (nodeCount_mirrors_array Sample.cos Sample.sin Sample.PI).
  exact firstFrame_reachable.
Defined.

Lemma nodes_stay_in_plane_witness :
  vy (position
        (heap (worldOf (tick Sample.cos Sample.sin Sample.PI Demo.firstFrame initialWorld))
           1%nat)) = 0.
Proof.
  apply (nodes_stay_in_plane Sample.cos Sample.sin Sample.PI).
  - exact firstFrame_reachable.
  - vm_compute. auto.
Defined.

Lemma reachable_tick_returns_witness :
  exists w',
    tick Sample.cos Sample.sin Sample.PI Demo.firstFrame initialWorld = Completed w'
    /\ reachable Sample.cos Sample.sin Sample.PI w'.
Proof.
  apply (reachable_tick_returns Sample.cos Sample.sin Sample.PI).
  - apply steps_refl.
  - apply steady_valid; reflexivity.
Defined.

Lemma tick_throws_iff_witness :
  exists w',
    tick Sample.cos Sample.sin Sample.PI (Demo.steady 16 0 0) Demo.unpopulated
    = TypeError w'.
Proof.
  apply (proj2 (tick_throws_iff Sample.cos Sample.sin Sample.PI
                  (Demo.steady 16 0 0) Demo.unpopulated
                  (steady_valid 16 0 0 eq_refl eq_refl eq_refl))).
  repeat split.
Defined.

Lemma syncing_reports_every_node_witness :
  exists w' l,
    tick Sample.cos Sample.sin Sample.PI (Demo.steady 16 (1 # 2) 0) Demo.syncing
    = Completed w'
    /\ effects w' = effects Demo.syncing ++ l
    /\ filter isProgress l
       = map (fun n => ShowSyncProgress n (Num.rem (6900 + 16 * 1) 2000 / 2000))
           [0; 1; 2]%nat.
Proof.
  destruct (syncing_reports_every_node Sample.cos Sample.sin Sample.PI
              (Demo.steady 16 (1 # 2) 0) Demo.syncing eq_refl eq_refl)
    as (w' & l & H1 & H2 & H3 & _).
  exists w', l. repeat split; assumption.
Defined.

Lemma tick_keeps_objects_witness :
  nodeId (heap (worldOf (tick Sample.cos Sample.sin Sample.PI Demo.firstFrame initialWorld))
            0%nat)
  = nodeId (heap initialWorld 0%nat).
Proof.
  destruct (tick_keeps_objects Sample.cos Sample.sin Sample.PI
              Demo.firstFrame initialWorld) as (H & _).
  apply H. simpl. lia.
Defined.

Lemma tick_membership_frame_witness :
  nodes (worldOf (tick Sample.cos Sample.sin Sample.PI
                    (Demo.steady 16 (1 # 2) 0) Demo.syncing))
  = nodes Demo.syncing.
Proof.
  apply (tick_membership_frame Sample.cos Sample.sin Sample.PI
           (Demo.steady 16 (1 # 2) 0) Demo.syncing).
  discriminate.
Defined.

Lemma shutdown_spec_witness :
  connections (heap (shutdown 1%nat [0; 2]%nat Demo.linked) 0%nat)
  = JSSet.delete (nodeId (heap Demo.linked 1%nat))
      (connections (heap Demo.linked 0%nat)).
Proof.
  destruct (shutdown_spec 1%nat [0; 2]%nat Demo.linked) as (H & _).
  apply H; [simpl; auto|discriminate].
Defined.

Lemma connect_then_shutdown_witness :
  connections (heap (shutdown 0%nat [1; 2]%nat (connectTo 0%nat 1%nat Demo.three)) 1%nat)
  = connections (heap Demo.three 1%nat).
Proof.
  apply (connect_then_shutdown 0%nat 1%nat [1; 2]%nat Demo.three).
  - discriminate.
  - simpl. auto.
  - reflexivity.
  - intros x _. destruct x as [|[|[|x]]]; reflexivity.
  - discriminate.
Defined.

Lemma addNode_id_iff_witness :
  nodeId (heap (addNode Sample.cos Sample.sin Sample.PI Demo.firstFrame initialWorld)
            (nextRef initialWorld))
  = String.append "node-" (Num.toString 1700000000000).
Proof.
  destruct (addNode_id_iff Sample.cos Sample.sin Sample.PI
              Demo.firstFrame initialWorld) as (H & _).
  apply (proj2 (H 1700000000000%Z)). reflexivity.
Defined.

Lemma pickRandomConnectedPeer_spec_witness :
  exists t, pickRandomConnectedPeer Demo.linked 1%nat (1 # 2) = Some t.
Proof.
  destruct (pickRandomConnectedPeer_spec Demo.linked 1%nat (1 # 2)) as (_ & _ & H).
  apply H.
  - discriminate.
  - reflexivity.
  - discriminate.
  - intros id Hin. vm_compute in Hin. destruct Hin as [<-|[<-|[]]].
    + exists 0%nat. split; [simpl; auto|reflexivity].
    + exists 2%nat. split; [simpl; auto|reflexivity].
Defined.

Lemma connect_timer_fires_witness :
  lists (fireTimeout 0 Demo.pending) 0%nat 1%nat = true.
Proof.
  destruct (connect_timer_fires 0 Demo.pending 0%nat 1%nat 500 eq_refl) as (H & _).
  exact H.
Defined.

Lemma paused_step_witness :
  toggleTheme (playPause initialWorld) = playPause (playPause initialWorld)
  \/ (isRunning (simulationState (toggleTheme (playPause initialWorld))) = false
      /\ currentPhase (simulationState (toggleTheme (playPause initialWorld)))
         = currentPhase (simulationState (playPause initialWorld))
      /\ phaseTimer (simulationState (toggleTheme (playPause initialWorld)))
         = phaseTimer (simulationState (playPause initialWorld))
      /\ nodeCount (simulationState (toggleTheme (playPause initialWorld)))
         = nodeCount (simulationState (playPause initialWorld))
      /\ nodes (toggleTheme (playPause initialWorld)) = nodes (playPause initialWorld)
      /\ nextRef (toggleTheme (playPause initialWorld))
         = nextRef (playPause initialWorld)).
Proof.
  apply (paused_step Sample.cos Sample.sin Sample.PI).
  - apply step_toggleTheme.
  - reflexivity.
Defined.

(** * The text layout under resizing *)

Lemma forEachIndexed_length {A B} (f : A -> Z -> B) (arr : list A) :
  List.length (Layout.forEachIndexed f arr) = List.length arr.
Proof.
  unfold Layout.forEachIndexed.
  rewrite length_map, length_combine, length_seq. apply Nat.min_id.
Qed.

Lemma forEachIndexed_const {A A' B} (g : Z -> B) (arr : list A) (arr' : list A') :
  List.length arr = List.length arr' ->
  Layout.forEachIndexed (fun _ i => g i) arr
  = Layout.forEachIndexed (fun _ i => g i) arr'.
Proof.
  unfold Layout.forEachIndexed. intros E. rewrite <- E.
  generalize (seq 0 (List.length arr)). revert arr' E.
  induction arr as [|x arr IH]; intros arr' E l.
  - destruct arr'; [|discriminate]. now destruct l.
  - destruct arr' as [|y arr']; [discriminate|]. destruct l; [reflexivity|].
    simpl. f_equal. apply IH. now injection E.
Qed.

Lemma forEachIndexed_nth {A B} (g : Z -> B) (arr : list A) (i : nat) :
  (i < List.length arr)%nat ->
  nth_error (Layout.forEachIndexed (fun _ i => g i) arr) i = Some (g (Z.of_nat i)).
Proof.
  unfold Layout.forEachIndexed. intros Hi.
  rewrite nth_error_map.
  destruct (nth_error arr i) as [x|] eqn:E;
    [|apply nth_error_None in E; lia].
  assert (H : nth_error (combine (seq 0 (List.length arr)) arr) i = Some (i, x)).
  { assert (G : forall (l : list A) (s j : nat) (y : A),
               nth_error l j = Some y ->
               nth_error (combine (seq s (List.length l)) l) j = Some ((s + j)%nat, y)).
    { induction l as [|z l IH]; intros s j y Hy; [now destruct j|].
      destruct j; simpl in *.
      - injection Hy as ->. now rewrite Nat.add_0_r.
      - rewrite (IH (S s) j y Hy). do 2 f_equal. lia. }
    exact (G arr 0%nat i x E). }
  rewrite H. reflexivity.
Qed.

Lemma resize_absorbs (x y : Z) (k : Layout.t) :
  Layout.resize y (Layout.resize x k) = Layout.resize y k.
Proof.
  unfold Layout.resize.
  destruct (x <? 600)%Z, (y <? 600)%Z, (x <? 1024)%Z, (y <? 1024)%Z;
    cbn [Layout.titleText Layout.titleShadows Layout.instructionsText
         Layout.instructionsShadows Layout.top];
    f_equal; apply forEachIndexed_const, forEachIndexed_length.
Qed.

Lemma resizes_snoc (widths : list Z) (b : Z) (k : Layout.t) :
  Layout.resizes (widths ++ [b]) k = Layout.resize b (Layout.resizes widths k).
Proof. unfold Layout.resizes. now rewrite fold_left_app. Qed.

(** X16. The resize listener forgets the past: the layout after two
    resizes is the layout after the second alone, so after any history of
    widths the texts are those of the latest width; and a width of 1024
    or more gives back the start-up layout. *)
Theorem resize_forgets_history (a b : Z) (widths : list Z) (l : Layout.t) :
  Layout.resize b (Layout.resize a l) = Layout.resize b l
  /\ Layout.resizes (widths ++ [b]) l = Layout.resize b l
  /\ ((1024 <= b)%Z -> Layout.resizes (widths ++ [b]) Layout.initial = Layout.initial).
Proof.
  assert (Hall : forall ws k, Layout.resizes (ws ++ [b]) k = Layout.resize b k).
  { induction ws as [|x ws IH] using rev_ind; intros k; [reflexivity|].
    now rewrite resizes_snoc, resizes_snoc, resize_absorbs, <- resizes_snoc. }
  split; [apply resize_absorbs|]. split; [apply Hall|].
  intros Hb. rewrite Hall. unfold Layout.resize.
  destruct (Z.ltb_spec b 600); [lia|]. destruct (Z.ltb_spec b 1024); [lia|].
  reflexivity.
Qed.

(** X17. After any history of resizes the three instruction shadows
    carry the font size of the instructions line and sit 0, 1 and 2 pixels
    below it, and the sizes are one of the three presets; the four title
    shadows, which the listener cannot reach, keep their 32 pixels while
    the title itself goes down to 24 or 28. *)
Theorem resize_keeps_shadows_aligned (widths : list Z) :
  let l := Layout.resizes widths Layout.initial in
  List.length (Layout.instructionsShadows l) = 3%nat
  /\ (forall i, (i < 3)%nat ->
        nth_error (Layout.instructionsShadows l) i
        = Some (Layout.mkTextBlock
                  (Layout.fontSize (Layout.instructionsText l))
                  (Layout.top (Layout.instructionsText l) + Z.of_nat i)%Z))
  /\ In (Layout.fontSize (Layout.titleText l),
         Layout.fontSize (Layout.instructionsText l),
         Layout.top (Layout.instructionsText l))
        [(24, 18, 120); (28, 20, 130); (32, 24, 140)]%Z
  /\ Layout.top (Layout.titleText l) = 20%Z
  /\ Layout.titleShadows l
     = [Layout.mkTextBlock 32 20; Layout.mkTextBlock 32 22;
        Layout.mkTextBlock 32 24; Layout.mkTextBlock 32 26]%Z.
Proof.
  intros l. subst l.
  induction widths as [|b ws IH] using rev_ind.
  - repeat split; simpl; auto.
    intros i Hi. destruct i as [|[|[|i]]]; [reflexivity..|lia].
  - destruct IH as (Hlen & _ & _ & Htop & Hsh).
    rewrite resizes_snoc. split; [|split; [|split; [|split]]].
    + unfold Layout.resize.
      destruct (b <? 600)%Z; [|destruct (b <? 1024)%Z];
        cbn [Layout.instructionsShadows];
        now rewrite forEachIndexed_length.
    + intros i Hi. rewrite <- Hlen in Hi. unfold Layout.resize.
      destruct (b <? 600)%Z; [|destruct (b <? 1024)%Z];
        cbn [Layout.instructionsShadows Layout.instructionsText
             Layout.fontSize Layout.top];
        rewrite (forEachIndexed_nth _ _ i Hi);
        unfold Layout.instructionsShadowOffset; now rewrite Z.mul_1_r.
    + unfold Layout.resize.
      destruct (b <? 600)%Z; [|destruct (b <? 1024)%Z]; simpl; auto.
    + rewrite <- Htop. unfold Layout.resize.
      destruct (b <? 600)%Z; [|destruct (b <? 1024)%Z]; reflexivity.
    + rewrite <- Hsh. unfold Layout.resize.
      destruct (b <? 600)%Z; [|destruct (b <? 1024)%Z]; reflexivity.
Qed.

Lemma resize_forgets_history_witness :
  Layout.resizes ([500; 800] ++ [1280])%Z Layout.initial = Layout.initial.
Proof.
  apply (proj2 (proj2 (resize_forgets_history 0 1280 [500; 800]%Z Layout.initial))).
  lia.
Defined.

Lemma resize_keeps_shadows_aligned_witness :
  nth_error (Layout.instructionsShadows (Layout.resizes [500]%Z Layout.initial)) 2
  = Some (Layout.mkTextBlock
            (Layout.fontSize
               (Layout.instructionsText (Layout.resizes [500]%Z Layout.initial)))
            (Layout.top
               (Layout.instructionsText (Layout.resizes [500]%Z Layout.initial))
             + Z.of_nat 2)%Z).
Proof.
  destruct (resize_keeps_shadows_aligned [500]%Z) as (_ & H & _).
  apply H. lia.
Defined.
